(** * pytest_logger: the leveled, multi-destination log router

    A shallow embedding of [src/pytest_logger/logger/logger.py] and of
    [__map_correct_level] from [src/pytest_logger/plugin.py], together with
    the fragment of the Python standard library ([logging], [pathlib], [os])
    those two files drive.

    Conventions.
    - Python [int] is [Z]; [str] is [string] (a byte string); a [dict] whose
      iteration order is observed is an association list, one that is only
      looked up is a [gmap].
    - Objects that are mutated through several references (the handlers held
      both by the router and by the [logging.Logger]) live in a heap and are
      named by their index in it.
    - A Python call is a state transformer that either returns or raises;
      whatever it had mutated before raising stays mutated. *)

From stdpp Require Import base option list strings gmap pretty.
From Stdlib Require Import Ascii ZArith Lia.

Local Open Scope Z_scope.

(** ** Python strings *)

Module str.

(** [c.lower()] on the ASCII range.  Every key of the level table is
    ASCII, so a byte outside that range can never take part in a match and
    leaving it alone does not change any lookup below. *)
Definition lower_ascii (c : ascii) : ascii :=
  let n := nat_of_ascii c in
  if (65 <=? n)%nat && (n <=? 90)%nat then ascii_of_nat (n + 32) else c.

Fixpoint lower (s : string) : string :=
  match s with
  | EmptyString => EmptyString
  | String c s' => String (lower_ascii c) (lower s')
  end.

(** [s.replace(old, new)] for a one-character [old]; the source only ever
    replaces [' '], ['-'] and ['_']. *)
Fixpoint replace (old : ascii) (new : string) (s : string) : string :=
  match s with
  | EmptyString => EmptyString
  | String c s' =>
      if Ascii.eqb c old then new +:+ replace old new s'
      else String c (replace old new s')
  end.

(** [needle in hay] *)
Fixpoint contains (needle hay : string) : bool :=
  String.prefix needle hay ||
  match hay with
  | EmptyString => false
  | String _ hay' => contains needle hay'
  end.

(** [sep.join(parts)] *)
Fixpoint join (sep : string) (parts : list string) : string :=
  match parts with
  | [] => ""
  | [p] => p
  | p :: ps => p +:+ sep +:+ join sep ps
  end.

(** [s.ljust(width)] with the blank fill of [%-8s] *)
Definition ljust (width : nat) (s : string) : string :=
  s +:+ String.string_of_list_ascii (repeat " "%char (width - String.length s)).

End str.

(** ** Exceptions and results *)

Inductive exn : Set :=
| AttributeError
| TypeError
| KeyError
| FileNotFoundError
| FileExistsError
| NotADirectoryError
| IsADirectoryError
| ValueError.

Global Instance exn_eq_dec : EqDecision exn.
Proof. solve_decision. Defined.

Inductive result (A : Type) : Type :=
| Ok (a : A)
| Raise (e : exn).
Arguments Ok {A} a.
Arguments Raise {A} e.

(** ** The [colored] package: the style tags the table refers to *)

Module colored.

Inductive style : Set :=
| CYAN | WHITE | YELLOW | RED | GREEN | light_gray   (* Fore.* *)
| RESET.                                             (* Style.RESET *)

Definition ESC : string := String (ascii_of_nat 27) "[".

(** The escape sequence a style stands for (256-colour foreground codes). *)
Definition code (s : style) : string :=
  match s with
  | CYAN => ESC +:+ "38;5;6m"
  | WHITE => ESC +:+ "38;5;15m"
  | YELLOW => ESC +:+ "38;5;3m"
  | RED => ESC +:+ "38;5;1m"
  | GREEN => ESC +:+ "38;5;2m"
  | light_gray => ESC +:+ "38;5;7m"
  | RESET => ESC +:+ "0m"
  end.

End colored.

(** ** [logging]: the five standard ranks *)

Module logging_levels.
Definition CRITICAL : Z := 50.
Definition ERROR : Z := 40.
Definition WARNING : Z := 30.
Definition INFO : Z := 20.
Definition DEBUG : Z := 10.
Definition NOTSET : Z := 0.
End logging_levels.
Import logging_levels.

(** ** logger.py: the level table *)

Record LevelInfo : Set := { level : Z; color : colored.style }.

(** [levels], in source order (a [dict] iterates in insertion order). *)
Definition levels : list (string * LevelInfo) :=
  [ ("debug",    {| level := DEBUG;    color := colored.CYAN |});
    ("info",     {| level := INFO;     color := colored.WHITE |});
    ("warning",  {| level := WARNING;  color := colored.YELLOW |});
    ("error",    {| level := ERROR;    color := colored.RED |});
    ("critical", {| level := CRITICAL; color := colored.RED |});
    ("step",     {| level := 21;       color := colored.WHITE |});
    ("substep",  {| level := 22;       color := colored.light_gray |});
    ("pass",     {| level := 23;       color := colored.GREEN |});
    ("fail",     {| level := 31;       color := colored.RED |}) ].

(** [d.get(key)] on an insertion-ordered dict with unique keys. *)
Fixpoint dict_get {V : Type} (d : list (string * V)) (key : string) : option V :=
  match d with
  | [] => None
  | (k, v) :: d' => if String.eqb k key then Some v else dict_get d' key
  end.

(** [d[key]] *)
Definition dict_getitem {V : Type} (d : list (string * V)) (key : string) : result V :=
  match dict_get d key with
  | Some v => Ok v
  | None => Raise KeyError
  end.

(** [levels[name]["level"]] as the router's methods read it. *)
Definition rank (name : string) : option Z := level <$> dict_get levels name.

(** [levels_by_value = {v["level"]: k for k, v in levels.items()}]: the
    comprehension inserts in iteration order, a later entry overwriting an
    earlier one with the same rank. *)
Definition levels_by_value : gmap Z string :=
  foldl (λ m kv, <[ level kv.2 := kv.1 ]> m) ∅ levels.

(** [ColorFormatter.__get_level_by_value] *)
Definition __get_level_by_value (target_level : Z) : option string * option LevelInfo :=
  match levels_by_value !! target_level with
  | Some key =>
      if bool_decide (key = "") then (None, None)      (* [if key] *)
      else (Some key, dict_get levels key)
  | None => (None, None)
  end.

(** ** plugin.py: [__map_correct_level] *)

Definition normalise (level_name : string) : string :=
  str.replace "_"%char "" (str.replace "-"%char "" (str.replace " "%char "" (str.lower level_name))).

(** The [for key, _ in levels.items(): if level_name in key: ... break] loop. *)
Fixpoint first_containing (level_name : string) (items : list (string * LevelInfo)) : string :=
  match items with
  | [] => level_name
  | (key, _) :: items' =>
      if str.contains level_name key then key else first_containing level_name items'
  end.

Definition __map_correct_level (level_name : string) : result Z :=
  let level_name := normalise level_name in
  let level_name := first_containing level_name levels in
  match dict_getitem levels "info" with        (* the default, evaluated eagerly *)
  | Raise e => Raise e
  | Ok info =>
      Ok (match dict_get levels level_name with
          | Some d => level d
          | None => level info
          end)
  end.

(** ** [logging]: records and formatters *)

Module logging.

(** A %-style format template, held parsed: literal text, and the
    substitutions [%(key)s] (width 0) and [%(key)-Ns] (width N > 0) over the
    record attributes the router's templates use. *)
Inductive key : Set := k_asctime | k_levelname | k_step | k_message.
Inductive piece : Set :=
| Lit (s : string)
| Subst (k : key) (width : nat).
Definition template : Set := list piece.

Definition key_name (k : key) : string :=
  match k with
  | k_asctime => "asctime"
  | k_levelname => "levelname"
  | k_step => "step"
  | k_message => "message"
  end.

(** The template string a parsed template stands for: a percent sign of
    the literal text is written twice. *)
Fixpoint escape (s : string) : string :=
  match s with
  | EmptyString => EmptyString
  | String c s' =>
      if Ascii.eqb c "%" then String "%" (String "%" (escape s'))
      else String c (escape s')
  end.

Definition directive (k : key) (width : nat) : string :=
  "%(" +:+ key_name k +:+ ")"
    +:+ (if width is O then "" else "-" +:+ pretty width) +:+ "s".

Fixpoint source (fmt : template) : string :=
  match fmt with
  | [] => ""
  | Lit s :: fmt' => escape s +:+ source fmt'
  | Subst k w :: fmt' => directive k w +:+ source fmt'
  end.

(** [PercentStyle.validation_pattern], searched in the template string:
    [%\(\w+\)[#0+ -]*(\*|\d+)?(\.(\*|\d+))?[diouxefgcrsa%]], letter case
    ignored; word characters and digits are the ASCII ones. *)
Definition is_digit (c : ascii) : bool :=
  let n := nat_of_ascii c in (48 <=? n)%nat && (n <=? 57)%nat.
Definition is_word (c : ascii) : bool :=
  let n := nat_of_ascii c in
  is_digit c || ((65 <=? n)%nat && (n <=? 90)%nat)
             || ((97 <=? n)%nat && (n <=? 122)%nat) || (n =? 95)%nat.
Definition is_flag (c : ascii) : bool :=
  existsb (Ascii.eqb c) ["#"; "0"; "+"; " "; "-"]%char.
Definition is_conversion (c : ascii) : bool :=
  existsb (Ascii.eqb (str.lower_ascii c))
    ["d"; "i"; "o"; "u"; "x"; "e"; "f"; "g"; "c"; "r"; "s"; "a"; "%"]%char.

Fixpoint drop_while (P : ascii → bool) (s : string) : string :=
  match s with
  | EmptyString => EmptyString
  | String c s' => if P c then drop_while P s' else s
  end.

(** [\*|\d+] at the head of [s]: what follows it. *)
Definition number (s : string) : option string :=
  match s with
  | EmptyString => None
  | String c s' =>
      if Ascii.eqb c "*" then Some s'
      else if is_digit c then Some (drop_while is_digit s')
      else None
  end.

(** The pattern matches at the head of [s].  No character of a flag, a
    width or a precision is a conversion, so taking each group as long as
    it goes loses no match. *)
Definition directive_here (s : string) : bool :=
  match s with
  | String c1 (String c2 s1) =>
      if Ascii.eqb c1 "%" && Ascii.eqb c2 "(" then
        match s1 with
        | String w s1' =>
            if is_word w then
              match drop_while is_word s1' with
              | String c3 s3 =>
                  if Ascii.eqb c3 ")" then
                    let s4 := drop_while is_flag s3 in
                    let s5 := default s4 (number s4) in
                    let s6 :=
                      match s5 with
                      | String c s' =>
                          if Ascii.eqb c "." then default s5 (number s') else s5
                      | EmptyString => s5
                      end in
                    match s6 with
                    | String c _ => is_conversion c
                    | EmptyString => false
                    end
                  else false
              | EmptyString => false
              end
            else false
        | EmptyString => false
        end
      else false
  | _ => false
  end.

(** [validation_pattern.search(s)] *)
Fixpoint search (s : string) : bool :=
  directive_here s ||
  match s with
  | EmptyString => false
  | String _ s' => search s'
  end.

(** A [LogRecord]: the attributes a template can name.  [step] is the
    attribute every router call adds through [extra={"step": ...}]. *)
Record LogRecord : Set := {
  levelno : Z;
  levelname : string;
  message : string;
  step : string;
  asctime : string
}.

Definition attribute (r : LogRecord) (k : key) : string :=
  match k with
  | k_asctime => asctime r
  | k_levelname => levelname r
  | k_step => step r
  | k_message => message r
  end.

(** [Formatter.format(record)] for a record without exception info. *)
Fixpoint Formatter_format (fmt : template) (r : LogRecord) : string :=
  match fmt with
  | [] => ""
  | Lit s :: fmt' => s +:+ Formatter_format fmt' r
  | Subst k w :: fmt' => str.ljust w (attribute r k) +:+ Formatter_format fmt' r
  end.

(** ["%(message)s"]: the template of [_defaultFormatter], used by a
    handler that was given none, and [PercentStyle.default_format]. *)
Definition BASIC_FORMAT : template := [Subst k_message 0].

(** [PercentStyle(fmt)._fmt]: [fmt or self.default_format]. *)
Definition PercentStyle (fmt : template) : template :=
  if bool_decide (source fmt = "") then BASIC_FORMAT else fmt.

(** [PercentStyle.validate] *)
Definition validate (fmt : template) : bool := search (source fmt).

(** [Formatter.__init__(fmt, datefmt)] with the style and the validation
    at their defaults: the template the formatter holds, or the
    [ValueError] of a template without any directive. *)
Definition Formatter__init__ (fmt : template) : result template :=
  let fmt := PercentStyle fmt in
  if validate fmt then Ok fmt else Raise ValueError.

(** [_levelToName] before any [addLevelName]. *)
Definition builtin_level_names : gmap Z string :=
  <[CRITICAL := "CRITICAL"]> (<[ERROR := "ERROR"]> (<[WARNING := "WARNING"]>
  (<[INFO := "INFO"]> (<[DEBUG := "DEBUG"]> (<[NOTSET := "NOTSET"]> ∅))))).

End logging.
Import logging.

(** ** logger.py: [ColorFormatter] *)

(** [ColorFormatter.format]: the base rendering, indented for a substep,
    wrapped in the level's colour and the reset code. *)
Definition ColorFormatter_format (fmt : template) (record : LogRecord) : string :=
  let formatted := Formatter_format fmt record in
  let '(level_key, level_info) := __get_level_by_value (levelno record) in
  let color :=
    match level_info with
    | Some info => color info
    | None => colored.RESET
    end in
  let formatted :=
    if bool_decide (level_key = Some "substep") then "   " +:+ formatted else formatted in
  colored.code color +:+ formatted +:+ colored.code colored.RESET.

(** The default template of [ColorFormatter.__init__]:
    ["[%(asctime)s] %(levelname)-8s %(message)s"]. *)
Definition ColorFormatter_default_fmt : template :=
  [Lit "["; Subst k_asctime 0; Lit "] "; Subst k_levelname 8; Lit " "; Subst k_message 0].

(** The router's default template: ["[%(levelname)s%(step)s] - %(message)s"]. *)
Definition default_format : template :=
  [Lit "["; Subst k_levelname 0; Subst k_step 0; Lit "] - "; Subst k_message 0].

(** The two formatter classes a handler of the router can hold. *)
Inductive formatter : Set :=
| Formatter (fmt : template)          (* logging.Formatter *)
| ColorFormatter (fmt : template).    (* logger.py *)

(** Dynamic dispatch of [fmt.format(record)]. *)
Definition format_with (f : formatter) (record : LogRecord) : string :=
  match f with
  | Formatter fmt => Formatter_format fmt record
  | ColorFormatter fmt => ColorFormatter_format fmt record
  end.

(** ** [pathlib], [os.path] and [os]: the file system the file handlers touch *)

Module fsys.

(** A location: the names that lead from the root directory to an entry;
    [[]] is the root directory itself. *)
Abbreviation path := (list string).

Inductive node : Set := Dir | File.

Global Instance node_eq_dec : EqDecision node.
Proof. solve_decision. Defined.

(** The file system as the process sees it: the entries by location, and
    the location of the working directory.  There are no symbolic links,
    and no permissions are refused. *)
Record filesystem : Type := { entries : gmap path node; cwd : path }.

Definition with_entries (f : gmap path node → gmap path node) (fs : filesystem)
  : filesystem :=
  {| entries := f (entries fs); cwd := cwd fs |}.

(** Splitting on ["/"]. *)
Fixpoint split (s cur : string) : list string :=
  match s with
  | EmptyString => [cur]
  | String c s' =>
      if Ascii.eqb c "/" then cur :: split s' "" else split s' (cur +:+ String c "")
  end.

(** The names between the slashes; empty and ["."] components vanish, a
    [".."] stays. *)
Definition components (s : string) : list string :=
  filter (λ c, c ≠ "" ∧ c ≠ ".") (split s "").

(** The root of a path string as [pathlib] splits it off: none for a
    relative path, ["//"] for exactly two leading slashes, ["/"] for one
    and for three or more. *)
Definition splitroot (s : string) : string :=
  if String.prefix "///" s then "/"
  else if String.prefix "//" s then "//"
  else if String.prefix "/" s then "/"
  else "".

(** A [pathlib.Path]: its root and the names after it. *)
Record PurePath : Set := { root : string; names : list string }.

Global Instance PurePath_eq_dec : EqDecision PurePath.
Proof. solve_decision. Defined.

(** [Path(s)] *)
Definition Path (s : string) : PurePath :=
  {| root := splitroot s; names := components s |}.

(** [p.parent]: the last name dropped; a path without names (the root, or
    the relative path ["."]) is its own parent. *)
Definition parent (p : PurePath) : PurePath :=
  {| root := root p; names := removelast (names p) |}.

(** The names the operating system resolves for [p], from the root
    directory: those of the working directory first when [p] is relative. *)
Definition locate (fs : filesystem) (p : PurePath) : list string :=
  (if bool_decide (root p = "") then cwd fs else []) ++ names p.

(** What resolving a path finds. *)
Inductive status : Set := is_dir | is_file | ENOENT | ENOTDIR.

Global Instance status_eq_dec : EqDecision status.
Proof. solve_decision. Defined.

(** Resolution walks the names from [cur], the location of a directory
    already reached; [".."] steps to the directory above it, which for the
    root is the root. *)
Fixpoint walk (m : gmap path node) (cur : path) (rest : list string) : status :=
  match rest with
  | [] => is_dir
  | c :: rest' =>
      if bool_decide (c = "..") then walk m (removelast cur) rest'
      else
        match m !! (cur ++ [c]) with
        | Some Dir => walk m (cur ++ [c]) rest'
        | Some File => match rest' with [] => is_file | _ => ENOTDIR end
        | None => ENOENT
        end
  end.

(** The location the names lead to when every step succeeds. *)
Fixpoint lexnorm (cur : path) (rest : list string) : path :=
  match rest with
  | [] => cur
  | c :: rest' =>
      if bool_decide (c = "..") then lexnorm (removelast cur) rest'
      else lexnorm (cur ++ [c]) rest'
  end.

Definition stat (fs : filesystem) (p : PurePath) : status :=
  walk (entries fs) [] (locate fs p).

(** [os.mkdir(p)] *)
Definition os_mkdir (p : PurePath) (fs : filesystem) : result filesystem :=
  match stat fs p with
  | is_dir | is_file => Raise FileExistsError
  | ENOTDIR => Raise NotADirectoryError
  | ENOENT =>
      match stat fs (parent p) with
      | is_dir => Ok (with_entries (λ m, <[lexnorm [] (locate fs p) := Dir]> m) fs)
      | ENOENT => Raise FileNotFoundError
      | is_file | ENOTDIR => Raise NotADirectoryError
      end
  end.

(** [p.is_dir()] *)
Definition Path_is_dir (fs : filesystem) (p : PurePath) : bool :=
  match stat fs p with is_dir => true | _ => false end.

(** [p.mkdir(parents=False, exist_ok=True)]: a missing parent is raised
    as it is, any other [OSError] is forgiven when [p] is a directory. *)
Definition mkdir_exist_ok (p : PurePath) (fs : filesystem) : result filesystem :=
  match os_mkdir p fs with
  | Ok fs' => Ok fs'
  | Raise e =>
      if bool_decide (e = FileNotFoundError) then Raise e
      else if Path_is_dir fs p then Ok fs else Raise e
  end.

(** [p.mkdir(parents=True, exist_ok=True)].  [n] is the number of names of
    [p]: the method recurses on [p.parent], which has one name fewer, and
    [p.parent == p] exactly when there is none left. *)
Fixpoint mkdir_parents (n : nat) (p : PurePath) (fs : filesystem) : result filesystem :=
  match os_mkdir p fs with
  | Ok fs' => Ok fs'
  | Raise e =>
      if bool_decide (e = FileNotFoundError) then
        match n with
        | O => Raise e
        | S n' =>
            match mkdir_parents n' (parent p) fs with
            | Ok fs' => mkdir_exist_ok p fs'
            | Raise e' => Raise e'
            end
        end
      else if Path_is_dir fs p then Ok fs else Raise e
  end.

(** [os.path.abspath(s)]: [normpath] of the string, joined to the working
    directory unless it starts with a slash.  On an absolute path
    [normpath] drops the empty and ["."] components and lets each [".."]
    take back the name before it, or nothing at the root. *)
Definition abspath (fs : filesystem) (s : string) : path :=
  lexnorm [] ((if String.prefix "/" s then [] else cwd fs) ++ components s).

(** [open(loc, "a")] on an absolute, normalised file name: append to an
    existing file or create it. *)
Definition open_append (loc : path) (fs : filesystem) : result filesystem :=
  match walk (entries fs) [] loc with
  | is_file => Ok fs
  | is_dir => Raise IsADirectoryError
  | ENOTDIR => Raise NotADirectoryError
  | ENOENT =>
      match walk (entries fs) [] (removelast loc) with
      | is_dir => Ok (with_entries (λ m, <[loc := File]> m) fs)
      | _ => Raise FileNotFoundError
      end
  end.

(** Every entry hangs below a directory that is itself reachable. *)
Definition tree (fs : filesystem) : Prop :=
  map_Forall (λ q _, q ≠ [] ∧ walk (entries fs) [] (removelast q) = is_dir) (entries fs).

End fsys.
Import fsys.

(** ** [logging]: handlers, the logger, the process state *)

(** Where a handler writes: [StreamHandler()] on [sys.stderr], or a
    [FileHandler] on its file. *)
Inductive sink : Set :=
| stderr
| file (baseFilename : path).

(** A handler object: [Handler.__init__] leaves [level = NOTSET] and
    [formatter = None]; [setLevel] and [setFormatter] mutate it later. *)
Record Handler : Set := {
  h_sink : sink;
  h_level : Z;
  h_formatter : option formatter
}.

(** The [logging.Logger] the router obtained from [getLogger]; handlers are
    references into the heap. *)
Record Logger : Set := {
  lg_level : Z;
  handlers : list nat
}.

(** One write of one rendered line, by the handler that made it;
    [LastResort] is the module's fallback handler on [sys.stderr]. *)
Inductive event : Set :=
| Emit (h : nat) (line : string)
| LastResort (line : string).

(** The process outside the router object. *)
Record World : Type := {
  logger : Logger;
  heap : list Handler;
  _levelToName : gmap Z string;
  fs : filesystem;
  now : string;                    (* the clock, as [datefmt] renders it *)
  out : list event
}.

(** The attributes of a [TestLogger] instance ([self.__x] in the source). *)
Record TestLogger : Set := {
  __call_file_handler : option nat;
  __setup_file_handler : option nat;
  __term_handler : option nat;
  __steps_file_handler : option nat;
  __combined_file_handler : option nat;
  __term_format : template;
  __setup_format : template;
  __term_config_loglevel : Z;
  __term_setup_loglevel : Z;
  __term_call_loglevel : Z;
  __setup_file_loglevel : Z;
  __call_file_loglevel : Z;
  __stepn : Z;
  __substepn : Z
}.

Record State : Type := { self : TestLogger; world : World }.

(** *** Field updates *)

Definition with_logger (f : Logger → Logger) (w : World) : World :=
  {| logger := f (logger w); heap := heap w; _levelToName := _levelToName w;
     fs := fs w; now := now w; out := out w |}.
Definition with_heap (f : list Handler → list Handler) (w : World) : World :=
  {| logger := logger w; heap := f (heap w); _levelToName := _levelToName w;
     fs := fs w; now := now w; out := out w |}.
Definition with_levelToName (f : gmap Z string → gmap Z string) (w : World) : World :=
  {| logger := logger w; heap := heap w; _levelToName := f (_levelToName w);
     fs := fs w; now := now w; out := out w |}.
Definition with_fs (f : filesystem → filesystem) (w : World) : World :=
  {| logger := logger w; heap := heap w; _levelToName := _levelToName w;
     fs := f (fs w); now := now w; out := out w |}.
Definition with_out (f : list event → list event) (w : World) : World :=
  {| logger := logger w; heap := heap w; _levelToName := _levelToName w;
     fs := fs w; now := now w; out := f (out w) |}.

Definition set_h_level (l : Z) (h : Handler) : Handler :=
  {| h_sink := h_sink h; h_level := l; h_formatter := h_formatter h |}.
Definition set_h_formatter (f : formatter) (h : Handler) : Handler :=
  {| h_sink := h_sink h; h_level := h_level h; h_formatter := Some f |}.

Definition set___term_handler (v : option nat) (s : TestLogger) : TestLogger :=
  {| __call_file_handler := __call_file_handler s;
     __setup_file_handler := __setup_file_handler s;
     __term_handler := v;
     __steps_file_handler := __steps_file_handler s;
     __combined_file_handler := __combined_file_handler s;
     __term_format := __term_format s; __setup_format := __setup_format s;
     __term_config_loglevel := __term_config_loglevel s;
     __term_setup_loglevel := __term_setup_loglevel s;
     __term_call_loglevel := __term_call_loglevel s;
     __setup_file_loglevel := __setup_file_loglevel s;
     __call_file_loglevel := __call_file_loglevel s;
     __stepn := __stepn s; __substepn := __substepn s |}.
Definition set___setup_file_handler (v : option nat) (s : TestLogger) : TestLogger :=
  {| __call_file_handler := __call_file_handler s;
     __setup_file_handler := v;
     __term_handler := __term_handler s;
     __steps_file_handler := __steps_file_handler s;
     __combined_file_handler := __combined_file_handler s;
     __term_format := __term_format s; __setup_format := __setup_format s;
     __term_config_loglevel := __term_config_loglevel s;
     __term_setup_loglevel := __term_setup_loglevel s;
     __term_call_loglevel := __term_call_loglevel s;
     __setup_file_loglevel := __setup_file_loglevel s;
     __call_file_loglevel := __call_file_loglevel s;
     __stepn := __stepn s; __substepn := __substepn s |}.
Definition set___term_format (v : template) (s : TestLogger) : TestLogger :=
  {| __call_file_handler := __call_file_handler s;
     __setup_file_handler := __setup_file_handler s;
     __term_handler := __term_handler s;
     __steps_file_handler := __steps_file_handler s;
     __combined_file_handler := __combined_file_handler s;
     __term_format := v; __setup_format := __setup_format s;
     __term_config_loglevel := __term_config_loglevel s;
     __term_setup_loglevel := __term_setup_loglevel s;
     __term_call_loglevel := __term_call_loglevel s;
     __setup_file_loglevel := __setup_file_loglevel s;
     __call_file_loglevel := __call_file_loglevel s;
     __stepn := __stepn s; __substepn := __substepn s |}.
Definition set___setup_format (v : template) (s : TestLogger) : TestLogger :=
  {| __call_file_handler := __call_file_handler s;
     __setup_file_handler := __setup_file_handler s;
     __term_handler := __term_handler s;
     __steps_file_handler := __steps_file_handler s;
     __combined_file_handler := __combined_file_handler s;
     __term_format := __term_format s; __setup_format := v;
     __term_config_loglevel := __term_config_loglevel s;
     __term_setup_loglevel := __term_setup_loglevel s;
     __term_call_loglevel := __term_call_loglevel s;
     __setup_file_loglevel := __setup_file_loglevel s;
     __call_file_loglevel := __call_file_loglevel s;
     __stepn := __stepn s; __substepn := __substepn s |}.
Definition set___term_config_loglevel (v : Z) (s : TestLogger) : TestLogger :=
  {| __call_file_handler := __call_file_handler s;
     __setup_file_handler := __setup_file_handler s;
     __term_handler := __term_handler s;
     __steps_file_handler := __steps_file_handler s;
     __combined_file_handler := __combined_file_handler s;
     __term_format := __term_format s; __setup_format := __setup_format s;
     __term_config_loglevel := v;
     __term_setup_loglevel := __term_setup_loglevel s;
     __term_call_loglevel := __term_call_loglevel s;
     __setup_file_loglevel := __setup_file_loglevel s;
     __call_file_loglevel := __call_file_loglevel s;
     __stepn := __stepn s; __substepn := __substepn s |}.
Definition set___term_setup_loglevel (v : Z) (s : TestLogger) : TestLogger :=
  {| __call_file_handler := __call_file_handler s;
     __setup_file_handler := __setup_file_handler s;
     __term_handler := __term_handler s;
     __steps_file_handler := __steps_file_handler s;
     __combined_file_handler := __combined_file_handler s;
     __term_format := __term_format s; __setup_format := __setup_format s;
     __term_config_loglevel := __term_config_loglevel s;
     __term_setup_loglevel := v;
     __term_call_loglevel := __term_call_loglevel s;
     __setup_file_loglevel := __setup_file_loglevel s;
     __call_file_loglevel := __call_file_loglevel s;
     __stepn := __stepn s; __substepn := __substepn s |}.
Definition set___term_call_loglevel (v : Z) (s : TestLogger) : TestLogger :=
  {| __call_file_handler := __call_file_handler s;
     __setup_file_handler := __setup_file_handler s;
     __term_handler := __term_handler s;
     __steps_file_handler := __steps_file_handler s;
     __combined_file_handler := __combined_file_handler s;
     __term_format := __term_format s; __setup_format := __setup_format s;
     __term_config_loglevel := __term_config_loglevel s;
     __term_setup_loglevel := __term_setup_loglevel s;
     __term_call_loglevel := v;
     __setup_file_loglevel := __setup_file_loglevel s;
     __call_file_loglevel := __call_file_loglevel s;
     __stepn := __stepn s; __substepn := __substepn s |}.
Definition set___setup_file_loglevel (v : Z) (s : TestLogger) : TestLogger :=
  {| __call_file_handler := __call_file_handler s;
     __setup_file_handler := __setup_file_handler s;
     __term_handler := __term_handler s;
     __steps_file_handler := __steps_file_handler s;
     __combined_file_handler := __combined_file_handler s;
     __term_format := __term_format s; __setup_format := __setup_format s;
     __term_config_loglevel := __term_config_loglevel s;
     __term_setup_loglevel := __term_setup_loglevel s;
     __term_call_loglevel := __term_call_loglevel s;
     __setup_file_loglevel := v;
     __call_file_loglevel := __call_file_loglevel s;
     __stepn := __stepn s; __substepn := __substepn s |}.

(** *** Calls that return or raise *)

(** A call over a mutable state [S]: it returns or raises, and hands back
    the state as it left it. *)
Definition call (S A : Type) : Type := S → result A * S.

Global Instance call_ret {S} : MRet (call S) := λ A a σ, (Ok a, σ).
Global Instance call_bind {S} : MBind (call S) := λ A B k m σ,
  match m σ with
  | (Ok a, σ') => k a σ'
  | (Raise e, σ') => (Raise e, σ')
  end.

Definition raise {S A : Type} (e : exn) : call S A := λ σ, (Raise e, σ).
Definition lift {S A : Type} (r : result A) : call S A := λ σ, (r, σ).
Definition skip {S : Type} : call S unit := mret ().
Definition update {S : Type} (f : S → S) : call S unit := λ σ, (Ok (), f σ).

(** Methods of the router run over the router object and the process. *)
Abbreviation M := (call State).

Definition attr {A : Type} (f : TestLogger → A) : M A := λ σ, (Ok (f (self σ)), σ).
Definition assign (f : TestLogger → TestLogger) : M unit :=
  λ σ, (Ok (), {| self := f (self σ); world := world σ |}).
Definition global {A : Type} (f : World → A) : M A := λ σ, (Ok (f (world σ)), σ).
Definition effect (f : World → World) : M unit :=
  λ σ, (Ok (), {| self := self σ; world := f (world σ) |}).

(** Looking a method up on a reference that may be [None]. *)
Definition deref (o : option nat) : M nat :=
  match o with
  | Some h => mret h
  | None => raise AttributeError
  end.

(** [levels[name]] and [levels[name]["level"]] *)
Definition levels_item {S} (name : string) : call S LevelInfo :=
  lift (dict_getitem levels name).
Definition levels_level {S} (name : string) : call S Z :=
  d ← levels_item name; mret (level d).

(** *** [logging] proper *)

(** What the source passes as the [level] argument of [Logger._log]. *)
Inductive pyobj : Set :=
| PyInt (z : Z)
| PyDict (d : LevelInfo).

Definition terminator : string := String (ascii_of_nat 10) "".

(** [logging.addLevelName(level, name)] *)
Definition addLevelName (l : Z) (name : string) : M unit :=
  effect (with_levelToName (λ m, <[l := name]> m)).

(** [logging.getLevelName(level)] as [LogRecord.__init__] calls it: the
    first step is [_levelToName.get(level)], which hashes its argument. *)
Definition getLevelName (l : pyobj) : M string :=
  match l with
  | PyInt z =>
      names ← global _levelToName;
      mret (default ("Level " +:+ pretty z) (names !! z))
  | PyDict _ => raise TypeError                (* unhashable type: 'dict' *)
  end.

(** [Handler.format] *)
Definition Handler_format (H : Handler) (record : LogRecord) : string :=
  match h_formatter H with
  | Some f => format_with f record
  | None => Formatter_format BASIC_FORMAT record
  end.

(** One turn of the loop of [Logger.callHandlers]:
    [if record.levelno >= hdlr.level: hdlr.handle(record)], the handler
    writing the rendered line and its terminator. *)
Definition handle_one (hp : list Handler) (record : LogRecord) (h : nat) : list event :=
  match hp !! h with
  | Some H =>
      if bool_decide (h_level H ≤ levelno record)
      then [Emit h (Handler_format H record +:+ terminator)]
      else []
  | None => []
  end.

(** [Logger.callHandlers]: every handler of the logger in turn; the root
    logger above it carries none, so when the logger has none either the
    record goes to [lastResort] (level [WARNING], bare message). *)
Definition dispatch (w : World) (record : LogRecord) : list event :=
  match handlers (logger w) with
  | [] =>
      if bool_decide (WARNING ≤ levelno record)
      then [LastResort (message record +:+ terminator)]
      else []
  | hs => flat_map (handle_one (heap w) record) hs
  end.

Definition callHandlers (record : LogRecord) : M unit :=
  effect (λ w, with_out (λ o, o ++ dispatch w record) w).

(** [Logger._log(level, msg, (), extra={"step": step})]: build the record,
    then [handle] it (the logger is enabled and has no filters). *)
Definition _log (l : pyobj) (msg : string) (extra_step : string) : M unit :=
  name ← getLevelName l;
  t ← global now;
  match l with
  | PyInt z =>
      callHandlers {| levelno := z; levelname := name; message := msg;
                      step := extra_step; asctime := t |}
  | PyDict _ => raise TypeError          (* not reached: [getLevelName] raised *)
  end.

(** The record [_log] builds in a given world for an integer level. *)
Definition make_record (w : World) (l : Z) (msg extra_step : string) : LogRecord :=
  {| levelno := l;
     levelname := default ("Level " +:+ pretty l) (_levelToName w !! l);
     message := msg; step := extra_step; asctime := now w |}.

(** [Logger.getEffectiveLevel]: the logger's own level unless it is
    [NOTSET], then the root's ([WARNING]). *)
Definition getEffectiveLevel (lg : Logger) : Z :=
  if bool_decide (lg_level lg = NOTSET) then WARNING else lg_level lg.

(** [Logger.isEnabledFor(level)], with [logging.disable] at its default 0. *)
Definition isEnabledFor (l : Z) : M bool :=
  lg ← global logger;
  mret (if bool_decide (l ≤ 0) then false else bool_decide (getEffectiveLevel lg ≤ l)).

(** [Logger.debug], [.info], [.warning], [.error]: gated by the logger's
    own level. *)
Definition Logger_log (l : Z) (msg : string) (extra_step : string) : M unit :=
  enabled ← isEnabledFor l;
  if enabled : bool then _log (PyInt l) msg extra_step else skip.

(** [Logger.setLevel] *)
Definition Logger_setLevel (l : Z) (lg : Logger) : Logger :=
  {| lg_level := l; handlers := handlers lg |}.

(** [Logger.addHandler]: appended unless that very object is there already. *)
Definition addHandler (h : nat) : M unit :=
  effect (with_logger (λ lg,
    if bool_decide (h ∈ handlers lg) then lg
    else {| lg_level := lg_level lg; handlers := handlers lg ++ [h] |})).

(** [Logger.removeHandler] *)
Definition removeHandler (h : nat) : M unit :=
  effect (with_logger (λ lg,
    {| lg_level := lg_level lg; handlers := filter (λ h', h' ≠ h) (handlers lg) |})).

(** A new handler object. *)
Definition new_handler (s : sink) : M nat :=
  n ← global (λ w, length (heap w));
  effect (with_heap (λ hp, hp ++ [ {| h_sink := s; h_level := NOTSET; h_formatter := None |} ]));;
  mret n.

(** [logging.StreamHandler()] *)
Definition StreamHandler : M nat := new_handler stderr.

(** [logging.FileHandler(filename)]: [baseFilename] is the absolute
    path of the name, and the file is opened for appending before the
    handler object exists. *)
Definition FileHandler (filename : string) : M nat :=
  files ← global fs;
  let baseFilename := abspath files filename in
  files' ← lift (open_append baseFilename files);
  effect (with_fs (λ _, files'));;
  new_handler (file baseFilename).

(** [hdlr.setLevel(level)], [hdlr.setFormatter(fmt)] *)
Definition setLevel (h : nat) (l : Z) : M unit :=
  effect (with_heap (alter (set_h_level l) h)).
Definition setFormatter (h : nat) (f : formatter) : M unit :=
  effect (with_heap (alter (set_h_formatter f) h)).

(** ** logger.py: [TestLogger] *)

(** The keyword arguments [__init__] reads. *)
Record Kwargs : Set := {
  kw_log_term_format : option template;
  kw_log_setup_format : option template;
  kw_term_config_loglevel : option Z;
  kw_term_setup_loglevel : option Z;
  kw_term_call_loglevel : option Z;
  kw_setup_file_loglevel : option Z;
  kw_call_file_loglevel : option Z
}.

Definition no_kwargs : Kwargs :=
  {| kw_log_term_format := None; kw_log_setup_format := None;
     kw_term_config_loglevel := None; kw_term_setup_loglevel := None;
     kw_term_call_loglevel := None; kw_setup_file_loglevel := None;
     kw_call_file_loglevel := None |}.

(** [TestLogger.__init__]: the logger named [logger_name] is the one of the
    world; its level becomes the rank of "info", its handlers stay. *)
Definition __init__ (kwargs : Kwargs) : call World TestLogger :=
  info ← levels_level "info";
  update (with_logger (Logger_setLevel info));;
  mret {| __call_file_handler := None;
          __setup_file_handler := None;
          __term_handler := None;
          __steps_file_handler := None;
          __combined_file_handler := None;
          __term_format := default default_format (kw_log_term_format kwargs);
          __setup_format := default default_format (kw_log_setup_format kwargs);
          __term_config_loglevel := default info (kw_term_config_loglevel kwargs);
          __term_setup_loglevel := default info (kw_term_setup_loglevel kwargs);
          __term_call_loglevel := default info (kw_term_call_loglevel kwargs);
          __setup_file_loglevel := default info (kw_setup_file_loglevel kwargs);
          __call_file_loglevel := default info (kw_call_file_loglevel kwargs);
          __stepn := 0;
          __substepn := 0 |}.

(** The integer-valued properties of the class.  [stepn] and [substepn] are
    declared with [@property] only; the three thresholds also have a
    [@x.setter]. *)
Inductive property : Set :=
| term_config_loglevel | term_setup_loglevel | term_call_loglevel
| stepn | substepn.

Definition fget (p : property) : TestLogger → Z :=
  match p with
  | term_config_loglevel => __term_config_loglevel
  | term_setup_loglevel => __term_setup_loglevel
  | term_call_loglevel => __term_call_loglevel
  | stepn => __stepn
  | substepn => __substepn
  end.

Definition fset (p : property) : option (Z → TestLogger → TestLogger) :=
  match p with
  | term_config_loglevel => Some set___term_config_loglevel
  | term_setup_loglevel => Some set___term_setup_loglevel
  | term_call_loglevel => Some set___term_call_loglevel
  | stepn | substepn => None
  end.

(** [self.p] *)
Definition getattr (p : property) : M Z := attr (fget p).

(** [self.p = v]: a property without a setter refuses the assignment. *)
Definition setattr (p : property) (v : Z) : M unit :=
  match fset p with
  | Some f => assign (f v)
  | None => raise AttributeError
  end.

Definition __add_handler (h : nat) : M unit := addHandler h.
Definition __remove_handler (h : nat) : M unit := removeHandler h.

Definition __create_file_handler (filepath : string) : M nat := FileHandler filepath.

(** [Path(path).parent.mkdir(parents=True, exist_ok=True)] *)
Definition __ensure_path (path : string) : M unit :=
  let p := parent (Path path) in
  files ← global fs;
  files' ← lift (mkdir_parents (length (names p)) p files);
  effect (with_fs (λ _, files')).

(** [logging.Formatter(fmt=fmt, datefmt=datefmt)] *)
Definition new_Formatter (fmt : template) : M formatter :=
  fmt ← lift (Formatter__init__ fmt);
  mret (Formatter fmt).

(** [ColorFormatter(fmt=fmt, datefmt=datefmt)]: registers the four custom
    level names, then initialises the base class over [fmt], which raises
    on a template it does not accept. *)
Definition ColorFormatter__init__ (fmt : option template) : M formatter :=
  let fmt := default ColorFormatter_default_fmt fmt in
  l ← levels_level "step"; addLevelName l "STEP";;
  l ← levels_level "substep"; addLevelName l "SUBSTEP";;
  l ← levels_level "pass"; addLevelName l "PASS";;
  l ← levels_level "fail"; addLevelName l "FAIL";;
  fmt ← lift (Formatter__init__ fmt);
  mret (ColorFormatter fmt).

Definition init_term_handler (level : option Z) (fmt : option template) : M unit :=
  (if level is Some l then assign (set___term_config_loglevel l) else skip);;
  (if fmt is Some f then assign (set___term_format f) else skip);;
  h ← StreamHandler;
  assign (set___term_handler (Some h));;
  l ← attr __term_config_loglevel;
  setLevel h l;;
  f ← attr __term_format;
  formatter ← ColorFormatter__init__ (Some f);
  setFormatter h formatter;;
  __add_handler h.

Definition init_setup_logger (path : string) (level : option Z) (fmt : option template)
  : M unit :=
  (if level is Some l then assign (set___setup_file_loglevel l) else skip);;
  (if fmt is Some f then assign (set___setup_format f) else skip);;
  __ensure_path path;;
  h ← __create_file_handler path;
  assign (set___setup_file_handler (Some h));;
  l ← attr __setup_file_loglevel;
  setLevel h l;;
  f ← attr __setup_format;
  formatter ← new_Formatter f;
  setFormatter h formatter;;
  addHandler h.

Definition configure_term_logger_setup : M unit :=
  o ← attr __term_handler;
  h ← deref o;
  l ← attr __term_setup_loglevel;
  setLevel h l.

Definition configure_term_logger_call : M unit :=
  o ← attr __term_handler;
  h ← deref o;
  l ← attr __term_call_loglevel;
  setLevel h l.

(** [enable and args] *)
Definition truthy (enable : bool) (args : list string) : bool :=
  enable && bool_decide (args ≠ []).

(** The leveled calls.  [args] are the parts, each already through [str];
    no further keyword arguments are passed on. *)
Definition debug (args : list string) (sep end_ : string) (enable : bool) : M unit :=
  let extra := "" in
  if truthy enable args then
    let msg := str.join sep args +:+ end_ in
    Logger_log DEBUG msg extra
  else skip.

Definition info (args : list string) (sep end_ : string) (enable : bool) : M unit :=
  let extra := "" in
  if truthy enable args then
    let msg := str.join sep args +:+ end_ in
    Logger_log INFO msg extra
  else skip.

Definition warning (args : list string) (sep end_ : string) (enable : bool) : M unit :=
  let extra := "" in
  if truthy enable args then
    let msg := str.join sep args +:+ end_ in
    Logger_log WARNING msg extra
  else skip.

Definition error (args : list string) (sep end_ : string) (enable : bool) : M unit :=
  let extra := "" in
  if truthy enable args then
    let msg := str.join sep args +:+ end_ in
    Logger_log ERROR msg extra
  else skip.

Definition passed (args : list string) (sep end_ : string) (enable : bool) : M unit :=
  let extra := "" in
  if truthy enable args then
    let msg := str.join sep args +:+ end_ in
    d ← levels_item "pass";
    _log (PyDict d) msg extra
  else skip.

Definition fail (args : list string) (sep end_ : string) (enable : bool) : M unit :=
  let extra := "" in
  if truthy enable args then
    let msg := str.join sep args +:+ end_ in
    l ← levels_level "fail";
    _log (PyInt l) msg extra
  else skip.

Definition step (args : list string) (sep end_ : string) (enable : bool) : M unit :=
  n ← getattr stepn; setattr stepn (n + 1);;
  setattr substepn 0;;
  n ← getattr stepn;
  let extra := " " +:+ pretty n in
  if truthy enable args then
    let msg := str.join sep args +:+ end_ in
    l ← levels_level "step";
    _log (PyInt l) msg extra
  else skip.

Definition substep (args : list string) (sep end_ : string) (enable : bool) : M unit :=
  n ← getattr substepn; setattr substepn (n + 1);;
  n ← getattr stepn;
  m ← getattr substepn;
  let extra := " " +:+ pretty n +:+ "." +:+ pretty m in
  if truthy enable args then
    let msg := str.join sep args +:+ end_ in
    l ← levels_level "substep";
    _log (PyInt l) msg extra
  else skip.

(** *** A process and the module-level [log = TestLogger()] *)

(** A process in which [logging] is untouched. *)
Definition process (files : filesystem) (clock : string) : World :=
  {| logger := {| lg_level := NOTSET; handlers := [] |};
     heap := [];
     _levelToName := builtin_level_names;
     fs := files;
     now := clock;
     out := [] |}.

(** An empty file system, the process working in its root directory. *)
Definition root_only : filesystem := {| entries := ∅; cwd := [] |}.

(** [log : TestLogger = TestLogger()] *)
Definition construct (kwargs : Kwargs) (w : World) : result State :=
  match __init__ kwargs w with
  | (Ok s, w') => Ok {| self := s; world := w' |}
  | (Raise e, _) => Raise e
  end.

Definition log : State :=
  {| self := {| __call_file_handler := None;
          __setup_file_handler := None;
          __term_handler := None;
          __steps_file_handler := None;
          __combined_file_handler := None;
          __term_format := default_format;
          __setup_format := default_format;
          __term_config_loglevel := 20;
          __term_setup_loglevel := 20;
          __term_call_loglevel := 20;
          __setup_file_loglevel := 20;
          __call_file_loglevel := 20;
          __stepn := 0;
          __substepn := 0 |};
     world := with_logger (Logger_setLevel 20) (process root_only "") |}.

(** ** plugin.py: the hooks that drive the router *)

(** [config.option] as far as [pytest_configure] looks at it: the three
    options of [pytest_addoption], each possibly absent. *)
Record Options : Set := {
  opt_term_config_loglevel : option string;
  opt_term_setup_loglevel : option string;
  opt_term_call_loglevel : option string
}.

(** [pytest_configure]: the three options are read, with "info" for an
    absent one, and not used; the terminal is attached as the router is
    configured. *)
Definition pytest_configure (options : Options) : M unit :=
  let term_config_loglevel := default "info" (opt_term_config_loglevel options) in
  let term_setup_loglevel := default "info" (opt_term_setup_loglevel options) in
  let term_call_loglevel := default "info" (opt_term_call_loglevel options) in
  init_term_handler None None.

(** [pytest_runtest_setup]; [testcase] is [meta.testcase].  The three
    [print] calls that come first write to [sys.stdout], which the world
    does not record. *)
Definition pytest_runtest_setup (testcase : string) : M unit :=
  configure_term_logger_setup;;
  init_setup_logger ("./reports/" +:+ testcase +:+ "_setup.log") None None.

(** [pytest_runtest_call] *)
Definition pytest_runtest_call : M unit := configure_term_logger_call.

(** ** Vocabulary of the properties *)

(** What [__init__] establishes and every method keeps: the logger's own
    level is the rank of "info"; its handlers are distinct live objects;
    the file system is a tree. *)
Record wf (σ : State) : Prop := {
  wf_level : lg_level (logger (world σ)) = INFO;
  wf_nodup : NoDup (handlers (logger (world σ)));
  wf_bound : Forall (λ h, (h < length (heap (world σ)))%nat) (handlers (logger (world σ)));
  wf_tree : tree (fs (world σ))
}.

(** A template [logging.Formatter] accepts: once the empty template has
    given way to ["%(message)s"], a directive is found in it. *)
Definition accepted (fmt : template) : Prop := validate (PercentStyle fmt) = true.

Global Instance accepted_dec fmt : Decision (accepted fmt).
Proof. unfold accepted. apply _. Defined.

(** The directory a path starts from (the working directory for a relative
    path, the root for an absolute one) resolves to a directory. *)
Definition anchored (fs : filesystem) (p : PurePath) : Prop :=
  walk (entries fs) [] (if bool_decide (root p = "") then cwd fs else []) = is_dir.

(** What [init_setup_logger] needs of a path to go through: none of its
    names is [".."], it starts from an existing directory, and it names a
    regular file or nothing yet. *)
Definition attachable (fs : filesystem) (path : string) : Prop :=
  (".." ∉ names (Path path)) ∧
  anchored fs (Path path) ∧
  (stat fs (Path path) = is_file ∨ stat fs (Path path) = ENOENT).

Global Instance anchored_dec fs p : Decision (anchored fs p).
Proof. unfold anchored. apply _. Defined.

Global Instance attachable_dec fs path : Decision (attachable fs path).
Proof. unfold attachable. apply _. Defined.

(** The names [ColorFormatter.__init__] registers. *)
Definition custom_level_names (m : gmap Z string) : gmap Z string :=
  <[31 := "FAIL"]> (<[23 := "PASS"]> (<[22 := "SUBSTEP"]> (<[21 := "STEP"]> m))).

(** The router object once [init_term_handler] has stored its arguments. *)
Definition term_configured (level : option Z) (fmt : option template) (s : TestLogger)
  : TestLogger :=
  let s := if level is Some l then set___term_config_loglevel l s else s in
  if fmt is Some f then set___term_format f s else s.

(** The router object once [init_setup_logger] has stored its arguments. *)
Definition setup_configured (level : option Z) (fmt : option template) (s : TestLogger)
  : TestLogger :=
  let s := if level is Some l then set___setup_file_loglevel l s else s in
  if fmt is Some f then set___setup_format f s else s.

(** The lines a given handler wrote among some events. *)
Definition writes_to (h : nat) (evs : list event) : list string :=
  omap (λ e, match e with
             | Emit h' line => if bool_decide (h' = h) then Some line else None
             | LastResort _ => None
             end) evs.

(** The attached destinations of either kind. *)
Definition is_terminal (w : World) (h : nat) : Prop :=
  h_sink <$> heap w !! h = Some stderr.
Definition is_file_destination (w : World) (h : nat) : Prop :=
  ∃ p, h_sink <$> heap w !! h = Some (file p).

Global Instance sink_eq_dec : EqDecision sink.
Proof. solve_decision. Defined.

Global Instance is_terminal_dec w h : Decision (is_terminal w h).
Proof. unfold is_terminal. apply _. Defined.

Global Instance is_file_destination_dec w h : Decision (is_file_destination w h).
Proof.
  unfold is_file_destination.
  destruct (h_sink <$> heap w !! h) as [[|p]|].
  - right. intros [p [=]].
  - left. by exists p.
  - right. intros [p [=]].
Defined.

Definition terminal_destinations (w : World) : list nat :=
  filter (is_terminal w) (handlers (logger w)).
Definition file_destinations (w : World) : list nat :=
  filter (is_file_destination w) (handlers (logger w)).

(** The state after a record went through [callHandlers]. *)
Definition dispatched (σ : State) (record : LogRecord) : State :=
  {| self := self σ;
     world := with_out (λ o, o ++ dispatch (world σ) record) (world σ) |}.

(** A call delivers at rank [r]: it returns, the record it built went
    through dispatch, and handler [h], whose object is [H], wrote the
    rendered line once if its level is at most [r] and nothing otherwise. *)
Definition delivers (m : M unit) (r : Z) (σ : State) (h : nat) (H : Handler) : Prop :=
  ∃ record,
    levelno record = r ∧
    m σ = (Ok (), dispatched σ record) ∧
    writes_to h (dispatch (world σ) record) =
    if bool_decide (h_level H ≤ r)
    then [Handler_format H record +:+ terminator] else [].

(** Between two states nothing differs but the object of handler [h],
    which is now [H']. *)
Definition only_handler_changed (σ σ' : State) (h : nat) (H' : Handler) : Prop :=
  self σ' = self σ ∧
  heap (world σ') !! h = Some H' ∧
  (∀ h', h' ≠ h → heap (world σ') !! h' = heap (world σ) !! h') ∧
  length (heap (world σ')) = length (heap (world σ)) ∧
  logger (world σ') = logger (world σ) ∧
  _levelToName (world σ') = _levelToName (world σ) ∧
  fs (world σ') = fs (world σ) ∧
  out (world σ') = out (world σ).

(** Running a method on a symbolic state. *)
Ltac exec :=
  cbv [mbind call_bind mret call_ret skip update raise lift attr assign global
       effect deref levels_item levels_level getattr setattr
       StreamHandler FileHandler new_handler setLevel setFormatter addHandler
       __add_handler __create_file_handler __ensure_path ColorFormatter__init__
       new_Formatter
       addLevelName getLevelName _log callHandlers isEnabledFor Logger_log
       with_logger with_heap with_levelToName with_fs with_out];
  cbn.

(** The path operations stay folded while a method runs. *)
Global Arguments Path : simpl never.
Global Arguments parent : simpl never.
Global Arguments abspath : simpl never.
Global Arguments mkdir_parents : simpl never.
Global Arguments open_append : simpl never.

(** * Properties *)

(** ** The level table *)

Lemma log_is_fresh : construct no_kwargs (process root_only "") = Ok log.
Proof. reflexivity. Qed.

Lemma elem_of_levels name d :
  (name, d) ∈ levels →
  (name, level d) ∈
    [("debug", 10); ("info", 20); ("warning", 30); ("error", 40); ("critical", 50);
     ("step", 21); ("substep", 22); ("pass", 23); ("fail", 31)].
Proof.
  intros Hin. apply (list_elem_of_fmap_2 (λ kv, (kv.1, level kv.2))) in Hin.
  exact Hin.
Qed.

Lemma foldl_insert_lookup_None (l : list (string * LevelInfo)) (m : gmap Z string) r :
  m !! r = None →
  (∀ name d, (name, d) ∈ l → level d ≠ r) →
  foldl (λ m kv, <[ level kv.2 := kv.1 ]> m) m l !! r = None.
Proof.
  revert m. induction l as [|[k d] l IH]; intros m Hm Hl; simpl; [done|].
  apply IH.
  - rewrite lookup_insert_ne; [done|]. apply (Hl k d). left.
  - intros name d' Hin. apply (Hl name d'). by right.
Qed.

Lemma levels_by_value_unowned r :
  (∀ name d, (name, d) ∈ levels → level d ≠ r) → levels_by_value !! r = None.
Proof. intros H. apply foldl_insert_lookup_None; [apply lookup_empty | done]. Qed.

(** C5 (as stated, refuted): the ranks 21, 22, 23 do not lie between the
    ranks of "warning" and "critical", and 31 does not lie above the rank
    of "critical". *)
Lemma custom_ranks_not_between_warning_and_critical :
  ¬ (rank "step" = Some 21 ∧ rank "substep" = Some 22 ∧ rank "pass" = Some 23 ∧
     rank "fail" = Some 31 ∧
     ∃ w c, rank "warning" = Some w ∧ rank "critical" = Some c ∧
            w < 21 < c ∧ w < 22 < c ∧ w < 23 < c ∧ c < 31).
Proof.
  intros (_ & _ & _ & _ & w & c & Hw & Hc & H21 & _).
  vm_compute in Hw. vm_compute in Hc. simplify_eq. lia.
Qed.

(** C5 (amended): step=21, substep=22 and pass=23 lie strictly between the
    ranks of "info" and "warning"; fail=31 lies strictly between the ranks
    of "warning" and "error", hence below "critical". *)
Theorem custom_ranks_interleaving :
  rank "step" = Some 21 ∧ rank "substep" = Some 22 ∧ rank "pass" = Some 23 ∧
  rank "fail" = Some 31 ∧
  ∃ i w e c,
    rank "info" = Some i ∧ rank "warning" = Some w ∧
    rank "error" = Some e ∧ rank "critical" = Some c ∧
    i < 21 < w ∧ i < 22 < w ∧ i < 23 < w ∧ w < 31 < e ∧ e < c.
Proof.
  repeat split; try reflexivity.
  exists 20, 30, 40, 50. repeat split; reflexivity || lia.
Qed.

(** C6: no two distinct level names share a rank, the reverse lookup
    returns every name from its rank, and for a rank owned by no level it
    returns [None], upon which the formatter wraps the line in the reset
    style only (and does not indent it). *)
Theorem rank_to_name_bijective :
  (∀ n1 d1 n2 d2,
     (n1, d1) ∈ levels → (n2, d2) ∈ levels → level d1 = level d2 → n1 = n2) ∧
  (∀ name d, (name, d) ∈ levels →
     __get_level_by_value (level d) = (Some name, Some d)) ∧
  (∀ r, (∀ name d, (name, d) ∈ levels → level d ≠ r) →
     levels_by_value !! r = None ∧
     __get_level_by_value r = (None, None) ∧
     ∀ fmt record, levelno record = r →
       ColorFormatter_format fmt record =
       colored.code colored.RESET +:+ Formatter_format fmt record
         +:+ colored.code colored.RESET).
Proof.
  split; [|split].
  - intros n1 d1 n2 d2 H1%elem_of_levels H2%elem_of_levels Heq.
    rewrite <- Heq in H2. revert H1 H2. generalize (level d1). intros z H1 H2.
    repeat (apply elem_of_cons in H1 as [H1|H1]; [injection H1 as -> ->|]);
      try (by apply elem_of_nil in H1);
      repeat (apply elem_of_cons in H2 as [H2|H2]; [by injection H2|]);
      by apply elem_of_nil in H2.
  - intros name d Hin. unfold levels in Hin.
    repeat (apply elem_of_cons in Hin as [Hin|Hin]; [injection Hin as -> ->; by vm_compute|]).
    by apply elem_of_nil in Hin.
  - intros r Hr. pose proof (levels_by_value_unowned r Hr) as Hnone.
    split; [done|]. split.
    + unfold __get_level_by_value. by rewrite Hnone.
    + intros fmt record <-. unfold ColorFormatter_format, __get_level_by_value.
      rewrite Hnone. reflexivity.
Qed.

Lemma rank_to_name_bijective_witness :
  levels_by_value !! 25 = None ∧ __get_level_by_value 25 = (None, None).
Proof.
  destruct rank_to_name_bijective as (_ & _ & H).
  destruct (H 25) as (H1 & H2 & _); [|by split].
  intros name d Hin%elem_of_levels Heq. rewrite Heq in Hin.
  repeat (apply elem_of_cons in Hin as [Hin|Hin]; [discriminate Hin|]).
  by apply elem_of_nil in Hin.
Defined.

(** ** Resolving a level name (plugin.py) *)

Lemma first_containing_unmatched n (items : list (string * LevelInfo)) :
  (∀ key d, (key, d) ∈ items → str.contains n key = false) →
  first_containing n items = n.
Proof.
  induction items as [|[k d] items IH]; intros H; simpl; [done|].
  rewrite (H k d); [|left]. apply IH. intros key d' Hin. apply (H key d'). by right.
Qed.

Lemma prefix_refl s : String.prefix s s = true.
Proof. induction s as [|c s IH]; simpl; [done|]. by destruct (ascii_dec c c). Qed.

Lemma contains_refl s : str.contains s s = true.
Proof. destruct s; simpl; [done|]. rewrite prefix_refl. by destruct (ascii_dec a a). Qed.

Lemma dict_get_unmatched {V} (d : list (string * V)) key :
  (∀ k v, (k, v) ∈ d → k ≠ key) → dict_get d key = None.
Proof.
  induction d as [|[k v] d IH]; intros H; simpl; [done|].
  destruct (String.eqb_spec k key) as [->|_].
  - exfalso. apply (H key v); [left | done].
  - apply IH. intros k' v' Hin. apply (H k' v'). by right.
Qed.

(** Resolution never raises: the default is always at hand. *)
Lemma map_correct_level_returns level_name :
  ∃ l, __map_correct_level level_name = Ok l.
Proof. unfold __map_correct_level. simpl. eauto. Qed.

(** C8 (as stated, refuted): "verbose" names no level, yet resolving it
    does not fail; it answers the rank of "info". *)
Lemma unknown_level_name_is_downgraded :
  dict_get levels "verbose" = None ∧
  ¬ (∃ e, __map_correct_level "verbose" = Raise e) ∧
  __map_correct_level "verbose" = Ok INFO.
Proof.
  split; [reflexivity|]. split; [|reflexivity].
  intros [e He]. vm_compute in He. discriminate He.
Qed.

(** C8 (amended): a name that, once normalised (lower case; blanks,
    hyphens and underscores removed), is contained in no registered level
    name resolves to the rank of "info" instead of failing. *)
Theorem unknown_level_name_resolves_to_info (level_name : string) :
  (∀ key d, (key, d) ∈ levels → str.contains (normalise level_name) key = false) →
  __map_correct_level level_name = Ok INFO.
Proof.
  intros H. unfold __map_correct_level.
  rewrite (first_containing_unmatched _ _ H).
  rewrite dict_get_unmatched; [reflexivity|].
  intros k v Hin ->. specialize (H _ _ Hin). by rewrite contains_refl in H.
Qed.

Lemma unknown_level_name_resolves_to_info_witness :
  __map_correct_level "Verbose_Mode" = Ok INFO.
Proof.
  apply (unknown_level_name_resolves_to_info "Verbose_Mode").
  intros key d Hin. unfold levels in Hin.
  repeat (apply elem_of_cons in Hin as [Hin|Hin]; [injection Hin as -> _; reflexivity|]).
  by apply elem_of_nil in Hin.
Defined.

(** ** The counters *)

(** C9: [stepn] and [substepn] have no setter, and every call of [step]
    and of [substep], whatever its arguments, raises on its first attribute
    assignment, before any record is built: the state, and with it the
    output, is what it was. *)
Theorem step_and_substep_always_raise
    (σ : State) (args : list string) (sep end_ : string) (enable : bool) :
  fset stepn = None ∧ fset substepn = None ∧
  step args sep end_ enable σ = (Raise AttributeError, σ) ∧
  substep args sep end_ enable σ = (Raise AttributeError, σ).
Proof.
  split; [reflexivity|]. split; [reflexivity|].
  unfold step, substep. split.
  - unfold mbind, call_bind. unfold getattr at 1, attr. by unfold setattr at 1.
  - unfold mbind, call_bind. unfold getattr at 1, attr. by unfold setattr at 1.
Qed.

(** C1 (the code at the claim's input): on the freshly constructed
    router the first call of the sequence, [step("a")], raises; no record
    and no tag is produced and both counters are still 0. *)
Theorem step_sequence_stops_at_first_call :
  ∃ σ, step ["a"] " " "" true log = (Raise AttributeError, σ) ∧
       out (world σ) = [] ∧
       __stepn (self σ) = 0 ∧ __substepn (self σ) = 0.
Proof. exists log. repeat split. Qed.

(** ** [passed] *)

(** C10: with parts and [enable] true, [passed] raises a type error and
    leaves the state, hence every destination, untouched: the level it hands
    to the logger is the whole descriptor of "pass", not its rank. *)
Theorem passed_always_fails
    (σ : State) (args : list string) (sep end_ : string) :
  args ≠ [] →
  passed args sep end_ true σ = (Raise TypeError, σ).
Proof.
  intros Hargs. unfold passed, truthy.
  rewrite bool_decide_true by done. reflexivity.
Qed.

Lemma passed_always_fails_witness :
  passed ["ok"] " " "" true log = (Raise TypeError, log).
Proof. apply (passed_always_fails log ["ok"] " " ""). discriminate. Defined.

(** ** Setting the terminal threshold *)

(** C7 (as stated, refuted): on the fresh router, which has no terminal
    destination, setting the terminal threshold raises. *)
Lemma threshold_without_terminal_raises :
  __term_handler (self log) = None ∧
  ¬ (∃ σ, configure_term_logger_setup log = (Ok (), σ)) ∧
  ¬ (∃ σ, configure_term_logger_call log = (Ok (), σ)).
Proof.
  split; [reflexivity|].
  split; intros [σ H]; vm_compute in H; discriminate H.
Qed.

(** C7 (amended): with no terminal destination attached, setting the
    terminal threshold raises an attribute error and leaves the router
    state unchanged. *)
Theorem threshold_without_terminal (σ : State) :
  __term_handler (self σ) = None →
  configure_term_logger_setup σ = (Raise AttributeError, σ) ∧
  configure_term_logger_call σ = (Raise AttributeError, σ).
Proof.
  intros H. unfold configure_term_logger_setup, configure_term_logger_call.
  unfold mbind, call_bind, attr. rewrite H. split; reflexivity.
Qed.

Lemma threshold_without_terminal_witness :
  configure_term_logger_setup log = (Raise AttributeError, log) ∧
  configure_term_logger_call log = (Raise AttributeError, log).
Proof. apply (threshold_without_terminal log). reflexivity. Defined.

(** ** Invariants of the router *)

Lemma tree_root_only : tree root_only.
Proof. apply map_Forall_empty. Qed.

Lemma wf_log : wf log.
Proof.
  split; simpl; [reflexivity | constructor | constructor | apply tree_root_only].
Qed.

Lemma wf_fresh_handler σ :
  wf σ → length (heap (world σ)) ∉ handlers (logger (world σ)).
Proof.
  intros Hwf Hin. pose proof (wf_bound _ Hwf) as Hb.
  rewrite Forall_forall in Hb. specialize (Hb _ Hin). lia.
Qed.

Lemma alter_snoc {A} (f : A → A) (l : list A) (x : A) :
  alter f (length l) (l ++ [x]) = l ++ [f x].
Proof.
  replace (length l) with (length l + 0)%nat by lia. by rewrite alter_app_r.
Qed.

Lemma Formatter__init__accepted fmt :
  accepted fmt → Formatter__init__ fmt = Ok (PercentStyle fmt).
Proof. unfold accepted, Formatter__init__. by intros ->. Qed.

Lemma Formatter__init__rejected fmt :
  ¬ accepted fmt → Formatter__init__ fmt = Raise ValueError.
Proof.
  unfold accepted, Formatter__init__. by destruct (validate (PercentStyle fmt)).
Qed.

Lemma init_term_handler_run level fmt σ :
  wf σ →
  let n := length (heap (world σ)) in
  let s := term_configured level fmt (self σ) in
  accepted (__term_format s) →
  init_term_handler level fmt σ =
  (Ok (),
   {| self := set___term_handler (Some n) s;
      world :=
        {| logger := {| lg_level := lg_level (logger (world σ));
                        handlers := handlers (logger (world σ)) ++ [n] |};
           heap := heap (world σ) ++
                   [ {| h_sink := stderr;
                        h_level := __term_config_loglevel s;
                        h_formatter :=
                          Some (ColorFormatter (PercentStyle (__term_format s))) |} ];
           _levelToName := custom_level_names (_levelToName (world σ));
           fs := fs (world σ);
           now := now (world σ);
           out := out (world σ) |} |}).
Proof.
  intros Hwf n s Hacc. pose proof (wf_fresh_handler _ Hwf) as Hfresh.
  apply Formatter__init__accepted in Hacc. revert Hacc.
  unfold init_term_handler, s.
  destruct level as [l|], fmt as [f|]; simpl; intros Hacc; exec; rewrite Hacc; exec.
  all: rewrite (bool_decide_false _ Hfresh).
  all: rewrite !alter_snoc; reflexivity.
Qed.

(** With a template the formatter rejects, the call raises once the
    handler object exists, has its level and is the router's terminal
    reference, and once the level names are registered; the handler is not
    attached. *)
Lemma init_term_handler_rejected level fmt σ :
  let n := length (heap (world σ)) in
  let s := term_configured level fmt (self σ) in
  ¬ accepted (__term_format s) →
  init_term_handler level fmt σ =
  (Raise ValueError,
   {| self := set___term_handler (Some n) s;
      world :=
        {| logger := logger (world σ);
           heap := heap (world σ) ++
                   [ {| h_sink := stderr;
                        h_level := __term_config_loglevel s;
                        h_formatter := None |} ];
           _levelToName := custom_level_names (_levelToName (world σ));
           fs := fs (world σ);
           now := now (world σ);
           out := out (world σ) |} |}).
Proof.
  intros n s Hrej. apply Formatter__init__rejected in Hrej. revert Hrej.
  unfold init_term_handler, s.
  destruct level as [l|], fmt as [f|]; simpl; intros Hrej; exec; rewrite Hrej; exec.
  all: rewrite !alter_snoc; reflexivity.
Qed.

Lemma wf_ext σ σ' :
  wf σ →
  logger (world σ') = logger (world σ) →
  (length (heap (world σ)) ≤ length (heap (world σ')))%nat →
  tree (fs (world σ')) →
  wf σ'.
Proof.
  intros [Hl Hnd Hb Ht] Hlg Hlen Ht'. split; rewrite ?Hlg; [done|done| |done].
  eapply Forall_impl; [exact Hb|]. simpl. intros; lia.
Qed.

Lemma wf_attached σ s' H names files :
  wf σ → tree files →
  wf {| self := s';
        world :=
          {| logger := {| lg_level := lg_level (logger (world σ));
                          handlers := handlers (logger (world σ))
                                        ++ [length (heap (world σ))] |};
             heap := heap (world σ) ++ [H];
             _levelToName := names;
             fs := files;
             now := now (world σ);
             out := out (world σ) |} |}.
Proof.
  intros [Hl Hnd Hb Ht] Ht'. split; simpl; [done| | |done].
  - apply NoDup_app. split; [done|]. split; [|apply NoDup_singleton].
    intros x Hx ->%list_elem_of_singleton.
    rewrite Forall_forall in Hb. specialize (Hb _ Hx). lia.
  - rewrite length_app. simpl. apply Forall_app. split.
    + eapply Forall_impl; [exact Hb|]. simpl. intros; lia.
    + apply Forall_singleton. lia.
Qed.

Lemma wf_init_term_handler level fmt σ r σ' :
  wf σ → init_term_handler level fmt σ = (r, σ') → wf σ'.
Proof.
  intros Hwf.
  destruct (decide (accepted (__term_format (term_configured level fmt (self σ)))))
    as [Hacc|Hrej].
  - rewrite init_term_handler_run by done. intros [= <- <-].
    apply wf_attached; [done | apply Hwf].
  - rewrite init_term_handler_rejected by done. intros [= <- <-].
    apply (wf_ext σ); simpl; [done|done| |apply Hwf].
    rewrite length_app. lia.
Qed.

(** ** Dispatch to the destinations *)

Lemma writes_to_app h evs1 evs2 :
  writes_to h (evs1 ++ evs2) = writes_to h evs1 ++ writes_to h evs2.
Proof. apply omap_app. Qed.

Lemma writes_to_handle_one_ne hp record h h' :
  h' ≠ h → writes_to h (handle_one hp record h') = [].
Proof.
  intros Hne. unfold handle_one. destruct (hp !! h') as [H|]; [|done].
  case_bool_decide; [|done]. simpl. by rewrite bool_decide_false.
Qed.

Lemma writes_to_handle_one hp record h H :
  hp !! h = Some H →
  writes_to h (handle_one hp record h) =
  if bool_decide (h_level H ≤ levelno record)
  then [Handler_format H record +:+ terminator] else [].
Proof.
  intros Hh. unfold handle_one. rewrite Hh.
  case_bool_decide; [|done]. simpl. by rewrite bool_decide_true.
Qed.

Lemma writes_to_flat_map_notin hp record h hs :
  h ∉ hs → writes_to h (flat_map (handle_one hp record) hs) = [].
Proof.
  induction hs as [|h' hs IH]; intros Hnotin; simpl; [done|].
  apply not_elem_of_cons in Hnotin as [Hne Hnotin].
  rewrite writes_to_app, writes_to_handle_one_ne, IH by done. done.
Qed.

Lemma writes_to_flat_map hp record h H hs :
  NoDup hs → h ∈ hs → hp !! h = Some H →
  writes_to h (flat_map (handle_one hp record) hs) =
  if bool_decide (h_level H ≤ levelno record)
  then [Handler_format H record +:+ terminator] else [].
Proof.
  induction 1 as [|h' hs Hnotin Hnd IH]; intros Hin Hh; [by apply elem_of_nil in Hin|].
  simpl. rewrite writes_to_app.
  destruct (decide (h' = h)) as [->|Hne].
  - rewrite (writes_to_handle_one _ _ _ _ Hh), writes_to_flat_map_notin by done.
    apply app_nil_r.
  - rewrite writes_to_handle_one_ne by done. simpl. apply IH; [|done].
    apply elem_of_cons in Hin as [->|Hin]; done.
Qed.

(** Each attached handler gets the record exactly when its own level
    admits it, and then writes it once. *)
Lemma writes_to_dispatch σ record h H :
  wf σ → h ∈ handlers (logger (world σ)) → heap (world σ) !! h = Some H →
  writes_to h (dispatch (world σ) record) =
  if bool_decide (h_level H ≤ levelno record)
  then [Handler_format H record +:+ terminator] else [].
Proof.
  intros Hwf Hin Hh. unfold dispatch.
  destruct (handlers (logger (world σ))) as [|h0 hs] eqn:Hhs; [by apply elem_of_nil in Hin|].
  apply writes_to_flat_map; [|done..]. rewrite <- Hhs. apply Hwf.
Qed.

Lemma _log_run σ l msg extra_step :
  _log (PyInt l) msg extra_step σ =
  (Ok (), dispatched σ (make_record (world σ) l msg extra_step)).
Proof. reflexivity. Qed.

Lemma Logger_log_run σ l msg extra_step :
  wf σ →
  Logger_log l msg extra_step σ =
  if bool_decide (INFO ≤ l) then _log (PyInt l) msg extra_step σ else (Ok (), σ).
Proof.
  intros Hwf. unfold Logger_log, isEnabledFor.
  cbv [mbind call_bind mret call_ret global skip getEffectiveLevel].
  rewrite (wf_level _ Hwf). simpl.
  repeat case_bool_decide; try reflexivity; unfold INFO in *; lia.
Qed.

Lemma _log_delivers σ l msg extra_step h H :
  wf σ → h ∈ handlers (logger (world σ)) → heap (world σ) !! h = Some H →
  delivers (_log (PyInt l) msg extra_step) l σ h H.
Proof.
  intros Hwf Hin Hh. exists (make_record (world σ) l msg extra_step).
  split; [done|]. split; [apply _log_run|].
  by rewrite (writes_to_dispatch _ _ _ _ Hwf Hin Hh).
Qed.

(** [info] reaches dispatch. *)
Lemma info_delivers σ h H args sep end_ :
  wf σ →
  h ∈ handlers (logger (world σ)) →
  heap (world σ) !! h = Some H →
  args ≠ [] →
  delivers (info args sep end_ true) INFO σ h H.
Proof.
  intros Hwf Hin Hh Hargs. unfold info, truthy.
  rewrite bool_decide_true by done. simpl.
  unfold delivers. rewrite Logger_log_run by done.
  rewrite bool_decide_true by done. by apply _log_delivers.
Qed.

(** C3 (as stated, refuted): a terminal destination with threshold
    [DEBUG] is attached and a [debug] call is made at rank [DEBUG]; the
    rank reaches the threshold, yet nothing is written to the destination. *)
Lemma debug_at_threshold_is_not_written :
  ∃ σ H σ',
    init_term_handler (Some DEBUG) None log = (Ok (), σ) ∧
    0%nat ∈ handlers (logger (world σ)) ∧
    heap (world σ) !! 0%nat = Some H ∧
    debug ["x"] " " "" true σ = (Ok (), σ') ∧
    ¬ ((∃ line, Emit 0 line ∈ out (world σ')) ↔ h_level H ≤ DEBUG).
Proof.
  pose (σ := (init_term_handler (Some DEBUG) None log).2).
  exists σ, {| h_sink := stderr; h_level := DEBUG;
               h_formatter := Some (ColorFormatter default_format) |}, σ.
  split; [by vm_compute|]. split; [by left|]. split; [by vm_compute|].
  split; [by vm_compute|]. intros [_ Himp].
  destruct Himp as [line Hline]; [done|].
  vm_compute in Hline. by apply elem_of_nil in Hline.
Qed.

(** C3 (amended): for every attached destination with minimum rank R, an
    [info], [warning], [error] or [fail] call with parts and [enable] true,
    at its rank r, writes its record to that destination once if r >= R and
    not at all otherwise; a [debug] call writes nothing anywhere, the
    router's own level (the rank of "info") stopping it before dispatch. *)
Theorem threshold_filtering
    (σ : State) (h : nat) (H : Handler) (args : list string) (sep end_ : string) :
  wf σ →
  h ∈ handlers (logger (world σ)) →
  heap (world σ) !! h = Some H →
  args ≠ [] →
  delivers (info args sep end_ true) INFO σ h H ∧
  delivers (warning args sep end_ true) WARNING σ h H ∧
  delivers (error args sep end_ true) ERROR σ h H ∧
  delivers (fail args sep end_ true) 31 σ h H ∧
  debug args sep end_ true σ = (Ok (), σ).
Proof.
  intros Hwf Hin Hh Hargs.
  unfold info, warning, error, fail, debug, truthy.
  rewrite bool_decide_true by done. simpl.
  repeat split.
  1-3: unfold delivers; rewrite Logger_log_run by done;
       rewrite bool_decide_true by (unfold INFO, WARNING, ERROR; lia);
       by apply _log_delivers.
  - by apply (_log_delivers σ 31).
  - rewrite Logger_log_run by done.
    rewrite bool_decide_false; [done | unfold INFO, DEBUG; lia].
Qed.

Lemma threshold_filtering_witness :
  ∃ σ H,
    init_term_handler (Some WARNING) None log = (Ok (), σ) ∧
    heap (world σ) !! 0%nat = Some H ∧
    delivers (info ["x"] " " "" true) INFO σ 0 H ∧
    delivers (error ["x"] " " "" true) ERROR σ 0 H.
Proof.
  pose (σ := (init_term_handler (Some WARNING) None log).2).
  pose (H := {| h_sink := stderr; h_level := WARNING;
                h_formatter := Some (ColorFormatter default_format) |}).
  exists σ, H. split; [by vm_compute|]. split; [by vm_compute|].
  destruct (threshold_filtering σ 0 H ["x"] " " "") as (Hi & _ & He & _).
  - eapply (wf_init_term_handler (Some WARNING) None log (Ok ())); [apply wf_log|].
    by vm_compute.
  - by left.
  - by vm_compute.
  - discriminate.
  - by split.
Defined.

(** ** Attaching the terminal *)

Lemma filter_ext_in {A} (P Q : A → Prop) `{∀ x, Decision (P x)} `{∀ x, Decision (Q x)}
    (l : list A) :
  (∀ x, x ∈ l → P x ↔ Q x) → filter P l = filter Q l.
Proof.
  induction l as [|x l IH]; intros Hext; [done|].
  rewrite !filter_cons. rewrite IH by (intros y Hy; apply Hext; by right).
  destruct (decide (P x)) as [HP|HP], (decide (Q x)) as [HQ|HQ]; try done.
  - exfalso. apply HQ, Hext; [left | done].
  - exfalso. apply HP, Hext; [left | done].
Qed.

(** C2 (as stated, refuted): after two consecutive [init_term_handler]
    calls on the fresh router two terminal destinations are attached, and
    one [info] call then produces two terminal writes. *)
Lemma second_attach_keeps_first_terminal :
  ∃ σ2 σ3,
    (init_term_handler None None;; init_term_handler None None) log = (Ok (), σ2) ∧
    length (terminal_destinations (world σ2)) ≠ 1%nat ∧
    info ["x"] " " "" true σ2 = (Ok (), σ3) ∧
    length (out (world σ3)) ≠ 1%nat ∧
    ∃ line, out (world σ3) = [Emit 0 line; Emit 1 line].
Proof.
  pose (σ2 := ((init_term_handler None None;; init_term_handler None None) log).2).
  exists σ2, (info ["x"] " " "" true σ2).2.
  split; [by vm_compute|]. split; [by vm_compute|].
  split; [by vm_compute|]. split; [by vm_compute|].
  eexists. vm_compute. reflexivity.
Qed.

(** What one [init_term_handler] leaves behind. *)
Lemma init_term_handler_post σ level fmt :
  wf σ →
  let n := length (heap (world σ)) in
  let R := default (__term_config_loglevel (self σ)) level in
  let T := default (__term_format (self σ)) fmt in
  accepted T →
  ∃ σ' H,
    init_term_handler level fmt σ = (Ok (), σ') ∧
    wf σ' ∧
    heap (world σ') = heap (world σ) ++ [H] ∧
    h_sink H = stderr ∧ h_level H = R ∧
    handlers (logger (world σ')) = handlers (logger (world σ)) ++ [n] ∧
    _levelToName (world σ') = custom_level_names (_levelToName (world σ)) ∧
    fs (world σ') = fs (world σ) ∧ out (world σ') = out (world σ) ∧
    __term_handler (self σ') = Some n ∧
    __term_config_loglevel (self σ') = R ∧
    __term_setup_loglevel (self σ') = __term_setup_loglevel (self σ) ∧
    __term_call_loglevel (self σ') = __term_call_loglevel (self σ) ∧
    __setup_file_handler (self σ') = __setup_file_handler (self σ) ∧
    h_formatter H = Some (ColorFormatter (PercentStyle T)) ∧
    __term_format (self σ') = T.
Proof.
  intros Hwf n R T Hacc.
  assert (__term_format (term_configured level fmt (self σ)) = T) as HT
    by (unfold T; by destruct level, fmt).
  pose proof (init_term_handler_run level fmt σ Hwf) as Hrun. cbv zeta in Hrun.
  rewrite HT in Hrun. specialize (Hrun Hacc).
  eexists _, _. split; [exact Hrun|].
  split; [by eapply wf_init_term_handler|]. simpl.
  unfold R, T. by destruct level, fmt.
Qed.

Lemma terminal_destinations_snoc (w w' : World) H :
  Forall (λ h, (h < length (heap w))%nat) (handlers (logger w)) →
  heap w' = heap w ++ [H] →
  h_sink H = stderr →
  handlers (logger w') = handlers (logger w) ++ [length (heap w)] →
  terminal_destinations w' = terminal_destinations w ++ [length (heap w)].
Proof.
  intros Hb Hheap Hs Hh. unfold terminal_destinations. rewrite Hh, filter_app. f_equal.
  - apply filter_ext_in. intros x Hx. unfold is_terminal.
    rewrite Forall_forall in Hb. specialize (Hb _ Hx).
    by rewrite Hheap, lookup_app_l.
  - rewrite filter_cons_True; [done|]. unfold is_terminal.
    by rewrite Hheap, list_lookup_middle, <- Hs.
Qed.

(** C2 (amended): a second [init_term_handler] attaches a further terminal
    destination without detaching the first and makes the new one the
    router's terminal reference.  After two consecutive calls, each with a
    template the formatter accepts, both are attached, each with the
    threshold and the template in force when it was created, and a
    following [info] call is written once by each of the two whose
    threshold it reaches. *)
Theorem attach_terminal_twice
    (σ : State) (level1 level2 : option Z) (fmt1 fmt2 : option template) :
  wf σ →
  let n := length (heap (world σ)) in
  let R1 := default (__term_config_loglevel (self σ)) level1 in
  let R2 := default R1 level2 in
  let T1 := default (__term_format (self σ)) fmt1 in
  let T2 := default T1 fmt2 in
  accepted T1 →
  accepted T2 →
  ∃ σ1 σ2 H1 H2,
    init_term_handler level1 fmt1 σ = (Ok (), σ1) ∧
    init_term_handler level2 fmt2 σ1 = (Ok (), σ2) ∧
    handlers (logger (world σ2)) = handlers (logger (world σ)) ++ [n; S n] ∧
    terminal_destinations (world σ2) = terminal_destinations (world σ) ++ [n; S n] ∧
    __term_handler (self σ2) = Some (S n) ∧
    heap (world σ2) !! n = Some H1 ∧ h_sink H1 = stderr ∧ h_level H1 = R1 ∧
    heap (world σ2) !! S n = Some H2 ∧ h_sink H2 = stderr ∧ h_level H2 = R2 ∧
    h_formatter H1 = Some (ColorFormatter (PercentStyle T1)) ∧
    h_formatter H2 = Some (ColorFormatter (PercentStyle T2)) ∧
    ∀ args sep end_, args ≠ [] →
      delivers (info args sep end_ true) INFO σ2 n H1 ∧
      delivers (info args sep end_ true) INFO σ2 (S n) H2.
Proof.
  intros Hwf n R1 R2 T1 T2 Hacc1 Hacc2.
  destruct (init_term_handler_post σ level1 fmt1 Hwf Hacc1)
    as (σ1 & H1 & E1 & Hwf1 & Hheap1 & Hs1 & HR1 & Hh1 & _ & _ & _ & _ & Hcfg1
        & _ & _ & _ & Hf1 & HT1).
  assert (accepted (default (__term_format (self σ1)) fmt2)) as Hacc2'
    by (by rewrite HT1).
  destruct (init_term_handler_post σ1 level2 fmt2 Hwf1 Hacc2')
    as (σ2 & H2 & E2 & Hwf2 & Hheap2 & Hs2 & HR2 & Hh2 & _ & _ & _ & Href2 & _
        & _ & _ & _ & Hf2 & _).
  assert (length (heap (world σ1)) = S n) as Hlen1.
  { rewrite Hheap1, length_app. simpl. unfold n. lia. }
  rewrite Hlen1 in *. rewrite Hcfg1 in HR2. rewrite HT1 in Hf2.
  assert (handlers (logger (world σ2)) = handlers (logger (world σ)) ++ [n; S n]) as Hhs.
  { by rewrite Hh2, Hh1, <- app_assoc. }
  assert (heap (world σ2) !! n = Some H1) as Hn.
  { rewrite Hheap2, Hheap1, <- app_assoc. by apply list_lookup_middle. }
  assert (heap (world σ2) !! S n = Some H2) as HSn.
  { rewrite Hheap2. by apply list_lookup_middle. }
  exists σ1, σ2, H1, H2. split_and!; try done.
  - rewrite (terminal_destinations_snoc (world σ1) (world σ2) H2);
      [|apply Hwf1|done|done|by rewrite Hlen1].
    rewrite (terminal_destinations_snoc (world σ) (world σ1) H1);
      [|apply Hwf|done|done|done].
    by rewrite Hlen1, <- app_assoc.
  - intros args sep end_ Hargs. split.
    + apply info_delivers; [done| |done|done]. rewrite Hhs. set_solver.
    + apply info_delivers; [done| |done|done]. rewrite Hhs. set_solver.
Qed.

Lemma attach_terminal_twice_witness :
  ∃ σ1 σ2 H1 H2,
    init_term_handler None None log = (Ok (), σ1) ∧
    init_term_handler (Some WARNING) None σ1 = (Ok (), σ2) ∧
    terminal_destinations (world σ2) = [0; 1]%nat ∧
    heap (world σ2) !! 0%nat = Some H1 ∧ h_level H1 = INFO ∧
    heap (world σ2) !! 1%nat = Some H2 ∧ h_level H2 = WARNING.
Proof.
  destruct (attach_terminal_twice log None (Some WARNING) None None wf_log)
    as (σ1 & σ2 & H1 & H2 & E1 & E2 & _ & Ht & _ & Hn & _ & HR1 & HSn & _ & HR2 & _);
    [reflexivity | reflexivity |].
  exists σ1, σ2, H1, H2. repeat split; assumption.
Defined.

(** ** The file system *)

Lemma walk_one m cur c :
  walk m cur [c] =
  if bool_decide (c = "..") then is_dir
  else match m !! (cur ++ [c]) with
       | Some Dir => is_dir
       | Some File => is_file
       | None => ENOENT
       end.
Proof. simpl. case_bool_decide; [done|]. by destruct (m !! _) as [[]|]. Qed.

Lemma walk_snoc m cur p c :
  walk m cur (p ++ [c]) =
  match walk m cur p with
  | is_dir => walk m (lexnorm cur p) [c]
  | is_file => ENOTDIR
  | e => e
  end.
Proof.
  revert cur. induction p as [|a p IH]; intros cur; [done|].
  cbn [app walk lexnorm]. case_bool_decide; [apply IH|].
  destruct (m !! (cur ++ [a])) as [[]|]; [apply IH| |done].
  by destruct p.
Qed.

Lemma walk_app m cur a b :
  walk m cur a = is_dir → walk m cur (a ++ b) = walk m (lexnorm cur a) b.
Proof.
  revert cur. induction a as [|c a IH]; intros cur; [done|].
  cbn [app walk lexnorm]. case_bool_decide; [apply IH|].
  destruct (m !! (cur ++ [c])) as [[]|]; [apply IH| |done].
  by destruct a.
Qed.

Lemma walk_mono m m' cur p :
  m ⊆ m' → walk m cur p = is_dir ∨ walk m cur p = is_file →
  walk m' cur p = walk m cur p.
Proof.
  intros Hsub. revert cur. induction p as [|a p IH]; intros cur H; [done|].
  cbn [walk] in *. case_bool_decide; [by apply IH|].
  destruct (m !! (cur ++ [a])) as [n|] eqn:Ha; [|by destruct H].
  rewrite (lookup_weaken _ _ _ _ Ha Hsub). destruct n; [by apply IH | done].
Qed.

Lemma lexnorm_app cur a b : lexnorm cur (a ++ b) = lexnorm (lexnorm cur a) b.
Proof.
  revert cur. induction a as [|c a IH]; intros cur; [done|].
  cbn [app lexnorm]. case_bool_decide; apply IH.
Qed.

Lemma lexnorm_plain cur p : ".." ∉ p → lexnorm cur p = cur ++ p.
Proof.
  revert cur. induction p as [|c p IH]; intros cur Hp; [by rewrite app_nil_r|].
  apply not_elem_of_cons in Hp as [Hc Hp].
  cbn [lexnorm]. rewrite bool_decide_false by done.
  rewrite IH by done. by rewrite <- app_assoc.
Qed.

Lemma elem_of_removelast {A} (x : A) (l : list A) : x ∈ removelast l → x ∈ l.
Proof.
  destruct l as [|a l _] using rev_ind; [done|].
  rewrite removelast_last. intros H. apply elem_of_app. by left.
Qed.

Lemma plain_snoc (l : list string) c : ".." ∉ l → c ≠ ".." → ".." ∉ l ++ [c].
Proof.
  intros Hl Hc [Hin|Hin%list_elem_of_singleton]%elem_of_app; [done | congruence].
Qed.

Lemma plain_nil : ".." ∉ @nil string.
Proof. apply not_elem_of_nil. Qed.

Lemma lexnorm_is_plain cur p : ".." ∉ cur → ".." ∉ lexnorm cur p.
Proof.
  revert cur. induction p as [|c p IH]; intros cur Hcur; [done|].
  cbn [lexnorm]. case_bool_decide as Hc; apply IH.
  - intros Hin. by apply Hcur, elem_of_removelast.
  - by apply plain_snoc.
Qed.

(** A directory is reached through directories. *)
Lemma walk_dir_removelast m L :
  walk m [] L = is_dir → walk m [] (removelast L) = is_dir.
Proof.
  destruct L as [|c L _] using rev_ind; [done|].
  rewrite removelast_last, walk_snoc. by destruct (walk m [] L).
Qed.

Lemma walk_dir_app m cur a b :
  walk m cur (a ++ b) = is_dir → walk m cur a = is_dir.
Proof.
  induction b as [|c b IH] using rev_ind; [by rewrite app_nil_r|].
  rewrite app_assoc, walk_snoc. destruct (walk m cur (a ++ b)); try done. auto.
Qed.

(** Where resolution succeeds, it finds what stands at the normalised
    location. *)
Lemma walk_lexnorm m L rest :
  ".." ∉ L → walk m [] L = is_dir →
  walk m L rest = is_dir ∨ walk m L rest = is_file →
  walk m [] (lexnorm L rest) = walk m L rest.
Proof.
  revert L. induction rest as [|c rest IH]; intros L Hpl HL H; [done|].
  cbn [walk lexnorm] in *. case_bool_decide as Hc.
  - apply IH; [|by apply walk_dir_removelast|done].
    intros Hin. by apply Hpl, elem_of_removelast.
  - assert (walk m [] (L ++ [c]) =
            match m !! (L ++ [c]) with
            | Some Dir => is_dir | Some File => is_file | None => ENOENT
            end) as Hstep.
    { rewrite walk_snoc, HL, lexnorm_plain, walk_one by done.
      by rewrite bool_decide_false. }
    destruct (m !! (L ++ [c])) as [[]|] eqn:Hl.
    + apply IH; [by apply plain_snoc|done|done].
    + destruct rest; [done | by destruct H].
    + by destruct H.
Qed.

Lemma walk_resolved m l :
  walk m [] l = is_dir ∨ walk m [] l = is_file →
  walk m [] (lexnorm [] l) = walk m [] l.
Proof. apply walk_lexnorm; [apply plain_nil | done]. Qed.

(** *** Paths *)

Lemma parent_of_root p : names p = [] → parent p = p.
Proof. destruct p as [r ns]. simpl. by intros ->. Qed.

Lemma locate_snoc fs r ns c :
  locate fs {| root := r; names := ns ++ [c] |} =
  locate fs {| root := r; names := ns |} ++ [c].
Proof. unfold locate. simpl. by rewrite app_assoc. Qed.

Lemma parent_snoc r ns c :
  parent {| root := r; names := ns ++ [c] |} = {| root := r; names := ns |}.
Proof. unfold parent. simpl. by rewrite removelast_last. Qed.

Lemma locate_ext fs fs' p : cwd fs' = cwd fs → locate fs' p = locate fs p.
Proof. unfold locate. by intros ->. Qed.

Lemma stat_parent_of_dir fs p : stat fs p = is_dir → stat fs (parent p) = is_dir.
Proof.
  destruct p as [r ns]. destruct ns as [|c ns _] using rev_ind; [done|].
  rewrite parent_snoc. unfold stat. rewrite locate_snoc. apply walk_dir_app.
Qed.

Lemma prefix_cons a s1 b s2 :
  String.prefix (String a s1) (String b s2) =
  if ascii_dec a b then String.prefix s1 s2 else false.
Proof. reflexivity. Qed.

Lemma prefix_slash s : bool_decide (splitroot s = "") = negb (String.prefix "/" s).
Proof.
  unfold splitroot. destruct s as [|c1 s]; [reflexivity|]. rewrite !prefix_cons.
  destruct (ascii_dec "/" c1); [|reflexivity].
  destruct s as [|c2 s]; [reflexivity|]. rewrite !prefix_cons.
  destruct (ascii_dec "/" c2); [|reflexivity].
  destruct s as [|c3 s]; [reflexivity|]. rewrite !prefix_cons.
  destruct (ascii_dec "/" c3); destruct s; reflexivity.
Qed.

Lemma abspath_locate fs s : abspath fs s = lexnorm [] (locate fs (Path s)).
Proof.
  unfold abspath, locate. simpl. rewrite prefix_slash.
  by destruct (String.prefix "/" s).
Qed.

Lemma abspath_plain fs s : ".." ∉ abspath fs s.
Proof. unfold abspath. apply lexnorm_is_plain, plain_nil. Qed.

Lemma abspath_ext fs fs' s : cwd fs' = cwd fs → abspath fs' s = abspath fs s.
Proof. unfold abspath. by intros ->. Qed.

(** *** Entries are only added, and the tree stays a tree *)

Lemma tree_insert fs K n :
  tree fs → entries fs !! K = None → K ≠ [] →
  walk (entries fs) [] (removelast K) = is_dir →
  entries fs ⊆ <[K := n]> (entries fs) ∧
  tree (with_entries (λ m, <[K := n]> m) fs).
Proof.
  intros Ht Hnone Hne Hp.
  assert (entries fs ⊆ <[K := n]> (entries fs)) as Hsub by (by apply insert_subseteq).
  split; [done|]. intros q x Hq. simpl in *.
  destruct (decide (K = q)) as [<-|Hpq].
  - split; [done|]. rewrite (walk_mono (entries fs)) by auto. done.
  - rewrite lookup_insert_ne in Hq by done. destruct (Ht _ _ Hq) as [? Hq'].
    split; [done|]. rewrite (walk_mono (entries fs)) by auto. done.
Qed.

(** What a later file system keeps of an earlier one. *)
Lemma os_mkdir_Ok fs p fs' :
  os_mkdir p fs = Ok fs' →
  ∃ K, fs' = with_entries (λ m, <[K := Dir]> m) fs ∧
       K = lexnorm [] (locate fs p) ∧
       entries fs !! K = None ∧ K ≠ [] ∧
       walk (entries fs) [] (removelast K) = is_dir.
Proof.
  unfold os_mkdir. intros H.
  destruct (stat fs p) eqn:He; try discriminate H.
  destruct (stat fs (parent p)) eqn:Hp; try discriminate H.
  injection H as <-. eexists. split; [done|]. split; [done|].
  destruct p as [r ns]. destruct ns as [|c ns _] using rev_ind.
  { rewrite parent_of_root in Hp by done. congruence. }
  rewrite parent_snoc in Hp. unfold stat in He, Hp. rewrite locate_snoc in *.
  set (l := locate fs {| root := r; names := ns |}) in *.
  rewrite walk_snoc, Hp, walk_one in He.
  rewrite lexnorm_app. cbn [lexnorm].
  case_bool_decide as Hc; [discriminate He|].
  split_and!.
  - by destruct (entries fs !! (lexnorm [] l ++ [c])) as [[]|].
  - by destruct (lexnorm [] l).
  - rewrite removelast_last. rewrite walk_resolved; auto.
Qed.

Lemma os_mkdir_ext fs p fs' :
  tree fs → os_mkdir p fs = Ok fs' →
  entries fs ⊆ entries fs' ∧ cwd fs' = cwd fs ∧ tree fs'.
Proof.
  intros Ht H. destruct (os_mkdir_Ok _ _ _ H) as (K & -> & _ & Hnone & Hne & Hp).
  destruct (tree_insert fs K Dir Ht Hnone Hne Hp) as [? ?]. by split_and!.
Qed.

Lemma mkdir_exist_ok_ext fs p fs' :
  tree fs → mkdir_exist_ok p fs = Ok fs' →
  entries fs ⊆ entries fs' ∧ cwd fs' = cwd fs ∧ tree fs'.
Proof.
  unfold mkdir_exist_ok. intros Ht H.
  destruct (os_mkdir p fs) as [fs1|e] eqn:Hm.
  - injection H as <-. by eapply os_mkdir_ext.
  - case_bool_decide; [discriminate H|].
    destruct (Path_is_dir fs p); [|discriminate H]. by injection H as <-.
Qed.

Lemma mkdir_parents_unfold n p fs :
  mkdir_parents n p fs =
  match os_mkdir p fs with
  | Ok fs' => Ok fs'
  | Raise e =>
      if bool_decide (e = FileNotFoundError) then
        match n with
        | O => Raise e
        | S n' =>
            match mkdir_parents n' (parent p) fs with
            | Ok fs' => mkdir_exist_ok p fs'
            | Raise e' => Raise e'
            end
        end
      else if Path_is_dir fs p then Ok fs else Raise e
  end.
Proof. by destruct n. Qed.

Lemma mkdir_parents_ext n fs p fs' :
  tree fs → mkdir_parents n p fs = Ok fs' →
  entries fs ⊆ entries fs' ∧ cwd fs' = cwd fs ∧ tree fs'.
Proof.
  revert p fs fs'. induction n as [|n IH]; intros p fs fs' Ht H;
    rewrite mkdir_parents_unfold in H;
    destruct (os_mkdir p fs) as [fs1|e] eqn:Hm.
  - injection H as <-. by eapply os_mkdir_ext.
  - case_bool_decide; [discriminate H|].
    destruct (Path_is_dir fs p); [|discriminate H]. by injection H as <-.
  - injection H as <-. by eapply os_mkdir_ext.
  - case_bool_decide.
    + destruct (mkdir_parents n (parent p) fs) as [fs1|e'] eqn:Hrec; [|discriminate H].
      destruct (IH _ _ _ Ht Hrec) as (Hsub1 & Hcwd1 & Ht1).
      destruct (mkdir_exist_ok_ext _ _ _ Ht1 H) as (Hsub2 & Hcwd2 & Ht2).
      split_and!; [by etrans | congruence | done].
    + destruct (Path_is_dir fs p); [|discriminate H]. by injection H as <-.
Qed.

Lemma open_append_Ok loc fs fs' :
  ".." ∉ loc → open_append loc fs = Ok fs' →
  fs' = fs ∨
  (fs' = with_entries (λ m, <[loc := File]> m) fs ∧
   entries fs !! loc = None ∧ loc ≠ [] ∧
   walk (entries fs) [] (removelast loc) = is_dir).
Proof.
  unfold open_append. intros Hpl H.
  destruct (walk (entries fs) [] loc) eqn:He; try discriminate H.
  - left. by injection H as <-.
  - destruct (walk (entries fs) [] (removelast loc)) eqn:Hp; try discriminate H.
    injection H as <-. right. split; [done|].
    destruct loc as [|c l _] using rev_ind; [discriminate He|].
    rewrite removelast_last in Hp.
    apply not_elem_of_app in Hpl as [Hl Hc]. apply not_elem_of_cons in Hc as [Hc _].
    rewrite walk_snoc, Hp, lexnorm_plain, walk_one in He by done.
    rewrite bool_decide_false in He by congruence. simpl in He.
    split_and!; [|by destruct l|done].
    by destruct (entries fs !! (l ++ [c])) as [[]|].
Qed.

Lemma open_append_ext loc fs fs' :
  tree fs → ".." ∉ loc → open_append loc fs = Ok fs' →
  entries fs ⊆ entries fs' ∧ cwd fs' = cwd fs ∧ tree fs'.
Proof.
  intros Ht Hpl H.
  destruct (open_append_Ok _ _ _ Hpl H) as [->|(-> & Hnone & Hne & Hp)]; [done|].
  destruct (tree_insert fs loc File Ht Hnone Hne Hp) as [? ?]. by split_and!.
Qed.

(** *** Making the directories of a path without [".."] *)

Lemma stat_snoc fs r ns c :
  ".." ∉ ns → c ≠ ".." →
  let B := lexnorm [] (if bool_decide (r = "") then cwd fs else []) in
  stat fs {| root := r; names := ns ++ [c] |} =
  match stat fs {| root := r; names := ns |} with
  | is_dir =>
      match entries fs !! (B ++ ns ++ [c]) with
      | Some Dir => is_dir
      | Some File => is_file
      | None => ENOENT
      end
  | is_file => ENOTDIR
  | e => e
  end.
Proof.
  intros Hns Hc B. unfold stat. rewrite locate_snoc, walk_snoc.
  destruct (walk _ _ (locate fs {| root := r; names := ns |})); try done.
  rewrite walk_one, bool_decide_false by done.
  unfold locate. simpl. rewrite lexnorm_app, lexnorm_plain by done.
  by rewrite <- app_assoc.
Qed.

Lemma stat_ext fs fs' p :
  cwd fs' = cwd fs → stat fs' p = walk (entries fs') [] (locate fs p).
Proof. intros H. unfold stat. by rewrite (locate_ext fs fs'). Qed.

Lemma stat_mono fs fs' p :
  entries fs ⊆ entries fs' → cwd fs' = cwd fs →
  stat fs p = is_dir ∨ stat fs p = is_file → stat fs' p = stat fs p.
Proof.
  intros Hsub Hcwd H. rewrite (stat_ext fs fs') by done. by apply walk_mono.
Qed.

Lemma walk_from_base m start ns :
  walk m [] start = is_dir →
  walk m [] (lexnorm [] start ++ ns) = walk m [] (start ++ ns).
Proof.
  intros H. rewrite (walk_app _ _ start) by done.
  rewrite walk_app by (rewrite walk_resolved; auto).
  by rewrite (lexnorm_plain [] (lexnorm [] start)) by apply lexnorm_is_plain, plain_nil.
Qed.

Lemma walk_location fs r ns :
  anchored fs {| root := r; names := ns |} →
  let B := lexnorm [] (if bool_decide (r = "") then cwd fs else []) in
  walk (entries fs) [] (B ++ ns) = stat fs {| root := r; names := ns |}.
Proof. intros Hanch B. by apply walk_from_base. Qed.

Lemma anchored_mono fs fs' p :
  entries fs ⊆ entries fs' → cwd fs' = cwd fs → anchored fs p → anchored fs' p.
Proof.
  unfold anchored. intros Hsub -> H. rewrite (walk_mono (entries fs)) by auto. done.
Qed.

Lemma tree_lookup_parent fs r ns c n :
  tree fs →
  anchored fs {| root := r; names := ns |} →
  let B := lexnorm [] (if bool_decide (r = "") then cwd fs else []) in
  entries fs !! (B ++ ns ++ [c]) = Some n →
  stat fs {| root := r; names := ns |} = is_dir.
Proof.
  intros Ht Hanch B Hl. destruct (Ht _ _ Hl) as [_ Hp].
  rewrite app_assoc, removelast_last in Hp.
  by rewrite <- walk_location.
Qed.

(** When the path names a directory there is nothing to make. *)
Lemma mkdir_parents_of_dir n p fs : stat fs p = is_dir → mkdir_parents n p fs = Ok fs.
Proof.
  intros H. rewrite mkdir_parents_unfold. unfold os_mkdir, Path_is_dir. rewrite H.
  by rewrite bool_decide_false.
Qed.

Lemma mkdir_parents_blocked n p fs :
  stat fs p = is_file ∨ stat fs p = ENOTDIR →
  mkdir_parents n p fs =
  Raise (if bool_decide (stat fs p = is_file) then FileExistsError else NotADirectoryError).
Proof.
  intros H. rewrite mkdir_parents_unfold. unfold os_mkdir, Path_is_dir.
  destruct H as [H|H]; rewrite H.
  - rewrite bool_decide_false by done. by rewrite bool_decide_true.
  - rewrite bool_decide_false by done. by rewrite bool_decide_false.
Qed.

Lemma app_snoc_ne_nil {A} (a b : list A) c : a ++ b ++ [c] ≠ [].
Proof.
  intros H. apply (f_equal length) in H. rewrite !length_app in H. simpl in H. lia.
Qed.

(** Creating one directory below an existing one. *)
Lemma os_mkdir_fresh fs r ns c :
  ".." ∉ ns → c ≠ ".." →
  let B := lexnorm [] (if bool_decide (r = "") then cwd fs else []) in
  stat fs {| root := r; names := ns |} = is_dir →
  entries fs !! (B ++ ns ++ [c]) = None →
  os_mkdir {| root := r; names := ns ++ [c] |} fs =
    Ok (with_entries (λ m, <[B ++ ns ++ [c] := Dir]> m) fs) ∧
  stat (with_entries (λ m, <[B ++ ns ++ [c] := Dir]> m) fs)
    {| root := r; names := ns ++ [c] |} = is_dir.
Proof.
  intros Hns Hc B Hp Hnone.
  assert (lexnorm [] (locate fs {| root := r; names := ns ++ [c] |}) = B ++ ns ++ [c])
    as Hloc.
  { unfold locate. simpl. rewrite lexnorm_app, lexnorm_plain; [done|].
    by apply plain_snoc. }
  split.
  - unfold os_mkdir. rewrite stat_snoc, parent_snoc, Hp by done. cbv zeta.
    fold B. by rewrite Hnone, Hloc.
  - rewrite stat_snoc by done. cbv zeta. simpl. fold B.
    rewrite lookup_insert_eq.
    rewrite (stat_mono fs); [by rewrite Hp | by apply insert_subseteq | done | auto].
Qed.

(** [mkdir(parents=True, exist_ok=True)] succeeds whenever no name is
    [".."] and no regular file stands in the way, and then the path is a
    directory. *)
Lemma mkdir_parents_creates fs r ns :
  tree fs → ".." ∉ ns →
  let p := {| root := r; names := ns |} in
  let B := lexnorm [] (if bool_decide (r = "") then cwd fs else []) in
  anchored fs p →
  stat fs p = is_dir ∨ stat fs p = ENOENT →
  ∃ fs', mkdir_parents (length ns) p fs = Ok fs' ∧
         stat fs' p = is_dir ∧
         entries fs ⊆ entries fs' ∧ cwd fs' = cwd fs ∧ tree fs' ∧
         ∀ q : path, (length (B ++ ns) < length q)%nat →
                     entries fs' !! q = entries fs !! q.
Proof.
  intros Ht. induction ns as [|c ns IH] using rev_ind; intros Hpl p B Hanch Hst.
  - assert (stat fs p = is_dir) as Hd.
    { unfold stat, locate, p. simpl. by rewrite app_nil_r. }
    exists fs. rewrite mkdir_parents_of_dir by done. by split_and!.
  - apply not_elem_of_app in Hpl as [Hns Hc]. apply not_elem_of_cons in Hc as [Hc _].
    assert (c ≠ "..") as Hc' by congruence.
    rewrite length_app, Nat.add_1_r. unfold p in *. clear p.
    rewrite stat_snoc in Hst by done. cbv zeta in Hst. fold B in Hst.
    rewrite mkdir_parents_unfold.
    destruct (stat fs {| root := r; names := ns |}) eqn:Hp; try (by destruct Hst).
    + destruct (entries fs !! (B ++ ns ++ [c])) as [[]|] eqn:Hl; try (by destruct Hst).
      * exists fs. unfold os_mkdir, Path_is_dir.
        rewrite stat_snoc by done. cbv zeta. fold B. rewrite Hp, Hl.
        rewrite bool_decide_false by done. by split_and!.
      * destruct (os_mkdir_fresh fs r ns c Hns Hc' Hp Hl) as [-> Hdir].
        eexists. split; [done|]. split; [done|]. simpl.
        split; [by apply insert_subseteq|]. split; [done|]. split.
        -- refine (proj2 (tree_insert fs (B ++ ns ++ [c]) Dir Ht Hl _ _)).
           ++ apply app_snoc_ne_nil.
           ++ rewrite app_assoc, removelast_last.
              pose proof (walk_location fs r ns Hanch) as Hw. cbv zeta in Hw.
              fold B in Hw. by rewrite Hw.
        -- intros q Hq. apply lookup_insert_ne. intros <-. unfold B in Hq. lia.
    + destruct (IH Hns Hanch (or_intror eq_refl))
        as (fs1 & Hrec & Hdir1 & Hsub1 & Hcwd1 & Ht1 & Hframe1). fold B in Hframe1.
      assert (entries fs !! (B ++ ns ++ [c]) = None) as Hnone.
      { destruct (entries fs !! (B ++ ns ++ [c])) eqn:Hl; [|done].
        pose proof (tree_lookup_parent fs r ns c _ Ht Hanch Hl) as Hd. congruence. }
      assert (entries fs1 !! (B ++ ns ++ [c]) = None) as Hnone1.
      { rewrite Hframe1; [done|]. rewrite !length_app. simpl. lia. }
      pose proof (os_mkdir_fresh fs1 r ns c Hns Hc' Hdir1) as Hfresh.
      cbv zeta in Hfresh. rewrite Hcwd1 in Hfresh. fold B in Hfresh.
      destruct (Hfresh Hnone1) as [Hmk Hdir].
      eexists. unfold os_mkdir at 1.
      rewrite stat_snoc by done. cbv zeta. fold B. rewrite parent_snoc, Hp.
      rewrite bool_decide_true by done. rewrite Hrec.
      unfold mkdir_exist_ok. rewrite Hmk. split; [done|]. split; [done|]. simpl.
      split; [etrans; [exact Hsub1|]; by apply insert_subseteq|].
      split; [done|]. split.
      * refine (proj2 (tree_insert fs1 (B ++ ns ++ [c]) Dir Ht1 Hnone1 _ _)).
        -- apply app_snoc_ne_nil.
        -- rewrite app_assoc, removelast_last.
           pose proof (walk_location fs1 r ns) as Hw. cbv zeta in Hw.
           rewrite Hcwd1 in Hw. fold B in Hw. rewrite Hw; [done|].
           by apply (anchored_mono fs).
      * intros q Hq. rewrite lookup_insert_ne.
        -- apply Hframe1. rewrite !length_app in *. simpl in Hq. lia.
        -- intros <-. unfold B in Hq. lia.
Qed.

(** The whole of what [init_setup_logger] asks of the file system:
    parents made, file opened. *)
Lemma ensure_and_open fs s :
  tree fs → attachable fs s →
  let p := Path s in
  ∃ fs1 fs2,
    mkdir_parents (length (names (parent p))) (parent p) fs = Ok fs1 ∧
    open_append (abspath fs1 s) fs1 = Ok fs2 ∧
    stat fs2 (parent p) = is_dir ∧ stat fs2 p = is_file ∧
    entries fs ⊆ entries fs2 ∧ cwd fs2 = cwd fs ∧ tree fs2.
Proof.
  intros Ht (Hpl & Hanch & Hst) p. unfold p in *. clear p.
  setoid_rewrite abspath_locate.
  destruct (Path s) as [r ns]. simpl in Hpl.
  destruct ns as [|c ns _] using rev_ind.
  { unfold anchored in Hanch. unfold stat, locate in Hst. simpl in *.
    rewrite app_nil_r, Hanch in Hst. by destruct Hst. }
  apply not_elem_of_app in Hpl as [Hns Hc]. apply not_elem_of_cons in Hc as [Hc _].
  assert (c ≠ "..") as Hc' by congruence.
  rewrite parent_snoc. simpl.
  set (B := lexnorm [] (if bool_decide (r = "") then cwd fs else [])).
  rewrite stat_snoc in Hst by done. cbv zeta in Hst. fold B in Hst.
  assert (stat fs {| root := r; names := ns |} = is_dir ∨
          stat fs {| root := r; names := ns |} = ENOENT) as Hp.
  { destruct (stat fs {| root := r; names := ns |}); try (by destruct Hst); auto. }
  destruct (mkdir_parents_creates fs r ns Ht Hns Hanch Hp)
    as (fs1 & Hmk & Hdir1 & Hsub1 & Hcwd1 & Ht1 & Hframe1). fold B in Hframe1.
  assert (anchored fs1 {| root := r; names := ns ++ [c] |}) as Hanch1
    by (by apply (anchored_mono fs)).
  assert (entries fs1 !! (B ++ ns ++ [c]) = entries fs !! (B ++ ns ++ [c])) as Hsame.
  { apply Hframe1. rewrite !length_app. simpl. lia. }
  assert (lexnorm [] (locate fs1 {| root := r; names := ns ++ [c] |}) = B ++ ns ++ [c])
    as Hloc.
  { unfold locate. simpl. rewrite Hcwd1, lexnorm_app, lexnorm_plain; [done|].
    by apply plain_snoc. }
  assert (walk (entries fs1) [] (B ++ ns) = is_dir) as HwB.
  { pose proof (walk_location fs1 r ns Hanch1) as Hw. cbv zeta in Hw.
    rewrite Hcwd1 in Hw. fold B in Hw. by rewrite Hw. }
  assert (stat fs1 {| root := r; names := ns ++ [c] |} =
          match entries fs !! (B ++ ns ++ [c]) with
          | Some Dir => is_dir | Some File => is_file | None => ENOENT
          end) as Hst1.
  { rewrite stat_snoc by done. cbv zeta. rewrite Hcwd1. fold B.
    by rewrite Hdir1, Hsame. }
  assert (walk (entries fs1) [] (B ++ ns ++ [c]) =
          stat fs1 {| root := r; names := ns ++ [c] |}) as Hw1.
  { pose proof (walk_location fs1 r (ns ++ [c]) Hanch1) as Hw. cbv zeta in Hw.
    rewrite Hcwd1 in Hw. by fold B in Hw. }
  assert (removelast (B ++ ns ++ [c]) = B ++ ns) as Hrl
    by (by rewrite app_assoc, removelast_last).
  exists fs1. rewrite Hloc. unfold open_append.
  rewrite Hw1, Hst1, Hrl, HwB.
  destruct (entries fs !! (B ++ ns ++ [c])) as [[]|] eqn:Hl.
  - pose proof (tree_lookup_parent fs r ns c _ Ht Hanch Hl) as Hd. rewrite Hd in Hst.
    by destruct Hst.
  - exists fs1. by split_and!.
  - eexists. split; [done|]. split; [done|].
    destruct (tree_insert fs1 (B ++ ns ++ [c]) File Ht1) as [Hsub2 Ht2];
      [done | apply app_snoc_ne_nil | by rewrite Hrl |].
    split_and!; [| | |done|done].
    + rewrite (stat_mono fs1); [done|done|done|auto].
    + rewrite stat_snoc by done. cbv zeta. simpl. rewrite Hcwd1. fold B.
      rewrite (stat_mono fs1) by (done || auto). rewrite Hdir1.
      by rewrite lookup_insert_eq.
    + by etrans.
Qed.

Lemma open_append_of_dir fs s :
  stat fs (Path s) = is_dir → open_append (abspath fs s) fs = Raise IsADirectoryError.
Proof.
  intros H. unfold open_append. rewrite abspath_locate.
  unfold stat in H. rewrite walk_resolved by auto. by rewrite H.
Qed.

(** ** Attaching the setup file *)

Lemma init_setup_logger_run path level fmt σ fs1 fs2 :
  wf σ →
  mkdir_parents (length (names (parent (Path path)))) (parent (Path path))
    (fs (world σ)) = Ok fs1 →
  open_append (abspath fs1 path) fs1 = Ok fs2 →
  let n := length (heap (world σ)) in
  let s := setup_configured level fmt (self σ) in
  accepted (__setup_format s) →
  init_setup_logger path level fmt σ =
  (Ok (),
   {| self := set___setup_file_handler (Some n) s;
      world :=
        {| logger := {| lg_level := lg_level (logger (world σ));
                        handlers := handlers (logger (world σ)) ++ [n] |};
           heap := heap (world σ) ++
                   [ {| h_sink := file (abspath fs1 path);
                        h_level := __setup_file_loglevel s;
                        h_formatter :=
                          Some (Formatter (PercentStyle (__setup_format s))) |} ];
           _levelToName := _levelToName (world σ);
           fs := fs2;
           now := now (world σ);
           out := out (world σ) |} |}).
Proof.
  intros Hwf Hmk Hop n s Hacc. pose proof (wf_fresh_handler _ Hwf) as Hfresh.
  apply Formatter__init__accepted in Hacc. revert Hacc.
  unfold init_setup_logger, s.
  destruct level as [l|], fmt as [f|]; simpl; intros Hacc; exec.
  all: rewrite Hmk; exec; rewrite Hop; exec; rewrite Hacc; exec.
  all: rewrite (bool_decide_false _ Hfresh).
  all: rewrite !alter_snoc; reflexivity.
Qed.

(** The three ways [init_setup_logger] fails: the directories cannot be
    made; the file cannot be opened; the formatter rejects the template,
    which is found out once the file is open and the handler object exists,
    has its level and is the router's setup-file reference, but before it
    is attached. *)
Lemma init_setup_logger_mkdir_fails path level fmt σ e :
  mkdir_parents (length (names (parent (Path path)))) (parent (Path path))
    (fs (world σ)) = Raise e →
  init_setup_logger path level fmt σ =
  (Raise e, {| self := setup_configured level fmt (self σ); world := world σ |}).
Proof.
  intros Hmk. unfold init_setup_logger. destruct σ as [s w]. cbn [world] in Hmk.
  destruct level as [l|], fmt as [f|]; exec; rewrite Hmk; reflexivity.
Qed.

Lemma init_setup_logger_open_fails path level fmt σ fs1 e :
  mkdir_parents (length (names (parent (Path path)))) (parent (Path path))
    (fs (world σ)) = Ok fs1 →
  open_append (abspath fs1 path) fs1 = Raise e →
  init_setup_logger path level fmt σ =
  (Raise e, {| self := setup_configured level fmt (self σ);
               world := with_fs (λ _, fs1) (world σ) |}).
Proof.
  intros Hmk Hop. unfold init_setup_logger. destruct σ as [s w]. cbn [world] in Hmk.
  destruct level as [l|], fmt as [f|]; exec; rewrite Hmk; exec; rewrite Hop; reflexivity.
Qed.

Lemma init_setup_logger_rejected path level fmt σ fs1 fs2 :
  mkdir_parents (length (names (parent (Path path)))) (parent (Path path))
    (fs (world σ)) = Ok fs1 →
  open_append (abspath fs1 path) fs1 = Ok fs2 →
  let n := length (heap (world σ)) in
  let s := setup_configured level fmt (self σ) in
  ¬ accepted (__setup_format s) →
  init_setup_logger path level fmt σ =
  (Raise ValueError,
   {| self := set___setup_file_handler (Some n) s;
      world :=
        {| logger := logger (world σ);
           heap := heap (world σ) ++
                   [ {| h_sink := file (abspath fs1 path);
                        h_level := __setup_file_loglevel s;
                        h_formatter := None |} ];
           _levelToName := _levelToName (world σ);
           fs := fs2;
           now := now (world σ);
           out := out (world σ) |} |}).
Proof.
  intros Hmk Hop n s Hrej. apply Formatter__init__rejected in Hrej. revert Hrej.
  unfold init_setup_logger, s.
  destruct level as [l|], fmt as [f|]; simpl; intros Hrej; exec.
  all: rewrite Hmk; exec; rewrite Hop; exec; rewrite Hrej; exec.
  all: rewrite !alter_snoc; reflexivity.
Qed.

(** Every outcome of one call, with what the file system went through. *)
Lemma init_setup_logger_cases path level fmt σ :
  wf σ →
  let p := Path path in
  let s := setup_configured level fmt (self σ) in
  (∃ e, mkdir_parents (length (names (parent p))) (parent p) (fs (world σ)) = Raise e) ∨
  (∃ fs1,
     mkdir_parents (length (names (parent p))) (parent p) (fs (world σ)) = Ok fs1 ∧
     entries (fs (world σ)) ⊆ entries fs1 ∧ cwd fs1 = cwd (fs (world σ)) ∧ tree fs1 ∧
     ((∃ e, open_append (abspath fs1 path) fs1 = Raise e) ∨
      (∃ fs2,
         open_append (abspath fs1 path) fs1 = Ok fs2 ∧
         entries fs1 ⊆ entries fs2 ∧ cwd fs2 = cwd fs1 ∧ tree fs2))).
Proof.
  intros Hwf p s. pose proof (wf_tree _ Hwf) as Ht.
  destruct (mkdir_parents (length (names (parent p))) (parent p) (fs (world σ)))
    as [fs1|e1] eqn:Hmk; [right|left; by exists e1].
  destruct (mkdir_parents_ext _ _ _ _ Ht Hmk) as (Hsub1 & Hcwd1 & Ht1).
  exists fs1. split_and!; try done.
  destruct (open_append (abspath fs1 path) fs1) as [fs2|e2] eqn:Hop;
    [right|left; by exists e2].
  destruct (open_append_ext _ _ _ Ht1 (abspath_plain _ _) Hop) as (Hsub2 & Hcwd2 & Ht2).
  by exists fs2.
Qed.

Lemma wf_init_setup_logger path level fmt σ r σ' :
  wf σ → init_setup_logger path level fmt σ = (r, σ') → wf σ'.
Proof.
  intros Hwf.
  destruct (init_setup_logger_cases path level fmt σ Hwf)
    as [[e1 Hmk]|(fs1 & Hmk & _ & _ & Ht1 & [[e2 Hop]|(fs2 & Hop & _ & _ & Ht2)])].
  - rewrite (init_setup_logger_mkdir_fails _ _ _ _ _ Hmk). intros [= <- <-].
    apply (wf_ext σ); [done..|apply Hwf].
  - rewrite (init_setup_logger_open_fails _ _ _ _ _ _ Hmk Hop). intros [= <- <-].
    by apply (wf_ext σ).
  - destruct (decide (accepted (__setup_format (setup_configured level fmt (self σ)))))
      as [Hacc|Hrej].
    + rewrite (init_setup_logger_run _ _ _ _ _ _ Hwf Hmk Hop Hacc). intros [= <- <-].
      by apply wf_attached.
    + rewrite (init_setup_logger_rejected _ _ _ _ _ _ Hmk Hop Hrej). intros [= <- <-].
      apply (wf_ext σ); simpl; [done|done| |done]. rewrite length_app. lia.
Qed.

(** C4 (as stated, refuted): after two consecutive [init_setup_logger] calls
    on the fresh router two setup-file destinations are attached, not one. *)
Lemma second_setup_file_keeps_first :
  ∃ σ2,
    (init_setup_logger "./reports/test_hello_setup.log" None None;;
     init_setup_logger "./reports/test_hello_setup.log" None None) log = (Ok (), σ2) ∧
    file_destinations (world σ2) = [0; 1]%nat ∧
    length (file_destinations (world σ2)) ≠ 1%nat.
Proof.
  exists ((init_setup_logger "./reports/test_hello_setup.log" None None;;
           init_setup_logger "./reports/test_hello_setup.log" None None) log).2.
  split; [by vm_compute|]. split; [by vm_compute|]. by vm_compute.
Qed.

Lemma file_destinations_snoc (w w' : World) H loc :
  Forall (λ h, (h < length (heap w))%nat) (handlers (logger w)) →
  heap w' = heap w ++ [H] →
  h_sink H = file loc →
  handlers (logger w') = handlers (logger w) ++ [length (heap w)] →
  file_destinations w' = file_destinations w ++ [length (heap w)].
Proof.
  intros Hb Hheap Hs Hh. unfold file_destinations. rewrite Hh, filter_app. f_equal.
  - apply filter_ext_in. intros x Hx. unfold is_file_destination.
    rewrite Forall_forall in Hb. specialize (Hb _ Hx).
    by rewrite Hheap, lookup_app_l.
  - rewrite filter_cons_True; [done|]. exists loc.
    by rewrite Hheap, list_lookup_middle, <- Hs.
Qed.

Lemma stat_dir_take fs r ns k :
  stat fs {| root := r; names := ns |} = is_dir →
  stat fs {| root := r; names := take k ns |} = is_dir.
Proof.
  unfold stat, locate. simpl. rewrite <- (take_drop k ns) at 1.
  rewrite app_assoc. apply walk_dir_app.
Qed.

(** One call, on a path that can be attached. *)
Lemma init_setup_logger_attaches (σ : State) path level fmt :
  wf σ →
  let n := length (heap (world σ)) in
  let R := default (__setup_file_loglevel (self σ)) level in
  let T := default (__setup_format (self σ)) fmt in
  accepted T →
  attachable (fs (world σ)) path →
  ∃ σ' H,
    init_setup_logger path level fmt σ = (Ok (), σ') ∧
    wf σ' ∧
    stat (fs (world σ')) (parent (Path path)) = is_dir ∧
    stat (fs (world σ')) (Path path) = is_file ∧
    entries (fs (world σ)) ⊆ entries (fs (world σ')) ∧
    cwd (fs (world σ')) = cwd (fs (world σ)) ∧
    heap (world σ') = heap (world σ) ++ [H] ∧
    h_sink H = file (abspath (fs (world σ)) path) ∧ h_level H = R ∧
    h_formatter H = Some (Formatter (PercentStyle T)) ∧
    handlers (logger (world σ')) = handlers (logger (world σ)) ++ [n] ∧
    file_destinations (world σ') = file_destinations (world σ) ++ [n] ∧
    __setup_file_handler (self σ') = Some n ∧
    __setup_file_loglevel (self σ') = R ∧
    __setup_format (self σ') = T ∧
    __term_handler (self σ') = __term_handler (self σ).
Proof.
  intros Hwf n R T Hacc Hpre.
  assert (__setup_format (setup_configured level fmt (self σ)) = T) as HT
    by (unfold T; by destruct level, fmt).
  destruct (ensure_and_open _ _ (wf_tree _ Hwf) Hpre)
    as (fs1 & fs2 & Hmk & Hop & Hdir & Hfile & Hsub & Hcwd & Ht2).
  destruct (mkdir_parents_ext _ _ _ _ (wf_tree _ Hwf) Hmk) as (_ & Hcwd1 & _).
  pose proof (init_setup_logger_run path level fmt σ fs1 fs2 Hwf Hmk Hop) as Hrun.
  cbv zeta in Hrun. rewrite HT in Hrun. specialize (Hrun Hacc).
  rewrite (abspath_ext _ _ _ Hcwd1) in Hrun.
  eexists _, _. split; [exact Hrun|].
  split; [by eapply wf_init_setup_logger|]. simpl.
  split_and!; try done; try (unfold R, T; by destruct level, fmt).
  eapply file_destinations_snoc; [apply Hwf|done..].
Qed.

(** Once attached, the path can be attached again. *)
Lemma attachable_again fs fs' path :
  attachable fs path →
  entries fs ⊆ entries fs' → cwd fs' = cwd fs →
  stat fs' (Path path) = is_file →
  attachable fs' path.
Proof.
  intros (Hpl & Hanch & _) Hsub Hcwd Hfile. split_and!; [done| |by left].
  by apply (anchored_mono fs).
Qed.

(** C4 (amended): [init_setup_logger], given a path none of whose names is
    [".."], that starts from an existing directory and names a regular file
    or nothing yet, and a template the formatter accepts, creates the
    missing parent directories of the path, opens the file and makes the
    new handler the router's setup-file reference, attaching it next to
    whatever was attached before; a second such call, on the same path or
    on another, does the same again, so that after two consecutive calls
    both setup-file destinations are attached and both files exist. *)
Theorem attach_setup_file_twice
    (σ : State) (path1 path2 : string) (level1 level2 : option Z)
    (fmt1 fmt2 : option template) :
  wf σ →
  let n := length (heap (world σ)) in
  let T1 := default (__setup_format (self σ)) fmt1 in
  let T2 := default T1 fmt2 in
  let p1 := Path path1 in
  let p2 := Path path2 in
  accepted T1 →
  accepted T2 →
  attachable (fs (world σ)) path1 →
  (∀ σ1, init_setup_logger path1 level1 fmt1 σ = (Ok (), σ1) →
         attachable (fs (world σ1)) path2) →
  ∃ σ1 σ2 H1 H2,
    init_setup_logger path1 level1 fmt1 σ = (Ok (), σ1) ∧
    (∀ k, stat (fs (world σ1))
            {| root := root p1; names := take k (names (parent p1)) |} = is_dir) ∧
    stat (fs (world σ1)) p1 = is_file ∧
    file_destinations (world σ1) = file_destinations (world σ) ++ [n] ∧
    __setup_file_handler (self σ1) = Some n ∧
    init_setup_logger path2 level2 fmt2 σ1 = (Ok (), σ2) ∧
    (∀ k, stat (fs (world σ2))
            {| root := root p2; names := take k (names (parent p2)) |} = is_dir) ∧
    stat (fs (world σ2)) p2 = is_file ∧
    stat (fs (world σ2)) p1 = is_file ∧
    handlers (logger (world σ2)) = handlers (logger (world σ)) ++ [n; S n] ∧
    file_destinations (world σ2) = file_destinations (world σ) ++ [n; S n] ∧
    __setup_file_handler (self σ2) = Some (S n) ∧
    heap (world σ2) = heap (world σ) ++ [H1; H2] ∧
    h_sink H1 = file (abspath (fs (world σ)) path1) ∧
    h_sink H2 = file (abspath (fs (world σ)) path2).
Proof.
  intros Hwf n T1 T2 p1 p2 Hacc1 Hacc2 Hpre1 Hpre2.
  destruct (init_setup_logger_attaches σ path1 level1 fmt1 Hwf Hacc1 Hpre1)
    as (σ1 & H1 & E1 & Hwf1 & Hdir1 & Hfile1 & Hsub1 & Hcwd1 & Hheap1 & Hs1 & _ & _
        & Hh1 & Hfd1 & Href1 & _ & HT1 & _).
  assert (accepted (default (__setup_format (self σ1)) fmt2)) as Hacc2'
    by (by rewrite HT1).
  destruct (init_setup_logger_attaches σ1 path2 level2 fmt2 Hwf1 Hacc2' (Hpre2 _ E1))
    as (σ2 & H2 & E2 & _ & Hdir2 & Hfile2 & Hsub2 & Hcwd2 & Hheap2 & Hs2 & _ & _
        & Hh2 & Hfd2 & Href2 & _).
  assert (length (heap (world σ1)) = S n) as Hlen1.
  { rewrite Hheap1, length_app. simpl. unfold n. lia. }
  rewrite Hlen1 in *.
  exists σ1, σ2, H1, H2. split_and!; try done.
  - intros k. by apply stat_dir_take.
  - intros k. by apply stat_dir_take.
  - rewrite (stat_mono (fs (world σ1))); auto.
  - by rewrite Hh2, Hh1, <- app_assoc.
  - by rewrite Hfd2, Hfd1, <- app_assoc.
  - by rewrite Hheap2, Hheap1, <- app_assoc.
  - by rewrite Hs2, (abspath_ext _ _ _ Hcwd1).
Qed.

Lemma attach_setup_file_twice_witness :
  ∃ σ2,
    (init_setup_logger "reports/a_setup.log" None None;;
     init_setup_logger "./reports/old/b_setup.log" (Some WARNING) None) log = (Ok (), σ2) ∧
    file_destinations (world σ2) = [0; 1]%nat ∧
    stat (fs (world σ2)) (Path "reports/old") = is_dir ∧
    stat (fs (world σ2)) (Path "reports/a_setup.log") = is_file ∧
    stat (fs (world σ2)) (Path "reports/old/b_setup.log") = is_file.
Proof.
  destruct (attach_setup_file_twice log "reports/a_setup.log" "./reports/old/b_setup.log"
              None (Some WARNING) None None wf_log)
    as (σ1 & σ2 & H1 & H2 & E1 & _ & _ & _ & _ & E2 & Hd & Hf2 & Hf1 & _ & Hfd & _).
  - reflexivity.
  - reflexivity.
  - apply (bool_decide_unpack _). by vm_compute.
  - intros σ1 E1.
    assert (σ1 = (init_setup_logger "reports/a_setup.log" None None log).2) as ->
      by (by rewrite E1).
    apply (bool_decide_unpack _). by vm_compute.
  - exists σ2. split_and!.
    + unfold mbind, call_bind. by rewrite E1.
    + exact Hfd.
    + exact (Hd 2%nat).
    + exact Hf1.
    + exact Hf2.
Defined.

(** ** The invariant is established by construction and kept by every method *)

Lemma wf_construct kwargs files clock σ :
  tree files → construct kwargs (process files clock) = Ok σ → wf σ.
Proof.
  intros Ht. unfold construct, __init__. exec. intros [= <-].
  split; simpl; [reflexivity | constructor | constructor | done].
Qed.

Lemma wf_dispatched σ record : wf σ → wf (dispatched σ record).
Proof. intros Hwf. by apply (wf_ext σ); [| | |apply Hwf]. Qed.

Lemma wf_Logger_log l msg extra_step σ r σ' :
  wf σ → Logger_log l msg extra_step σ = (r, σ') → wf σ'.
Proof.
  intros Hwf. rewrite Logger_log_run by done. case_bool_decide.
  - rewrite _log_run. intros [= <- <-]. by apply wf_dispatched.
  - by intros [= <- <-].
Qed.

Lemma wf_leveled_calls args sep end_ enable σ r σ' :
  wf σ →
  debug args sep end_ enable σ = (r, σ') ∨ info args sep end_ enable σ = (r, σ') ∨
  warning args sep end_ enable σ = (r, σ') ∨ error args sep end_ enable σ = (r, σ') ∨
  passed args sep end_ enable σ = (r, σ') ∨ fail args sep end_ enable σ = (r, σ') ∨
  step args sep end_ enable σ = (r, σ') ∨ substep args sep end_ enable σ = (r, σ') →
  wf σ'.
Proof.
  intros Hwf H.
  destruct H as [H|[H|[H|[H|[H|[H|[H|H]]]]]]]; revert H.
  1-4: unfold debug, info, warning, error; destruct (truthy enable args);
       [by apply wf_Logger_log | by intros [= <- <-]].
  - unfold passed. destruct (truthy enable args); by intros [= <- <-].
  - unfold fail. destruct (truthy enable args); [|by intros [= <- <-]].
    change (_log (PyInt 31) (str.join sep args +:+ end_) "" σ = (r, σ') → wf σ').
    rewrite _log_run. intros [= <- <-]. by apply wf_dispatched.
  - by intros [= <- <-].
  - by intros [= <- <-].
Qed.

Lemma wf_configure_term_logger σ r σ' :
  wf σ →
  configure_term_logger_setup σ = (r, σ') ∨ configure_term_logger_call σ = (r, σ') →
  wf σ'.
Proof.
  intros Hwf [H|H]; revert H;
    unfold configure_term_logger_setup, configure_term_logger_call; exec;
    destruct (__term_handler (self σ)); exec; intros [= <- <-]; try done;
    (apply (wf_ext σ); [done|done| |apply Hwf]); simpl; by rewrite length_alter.
Qed.

Lemma wf_setattr p v σ r σ' : wf σ → setattr p v σ = (r, σ') → wf σ'.
Proof.
  intros Hwf. unfold setattr. destruct (fset p); intros [= <- <-]; [|done].
  by apply (wf_ext σ); [| | |apply Hwf].
Qed.

(** With a terminal attached, setting the threshold changes that handler's
    level and nothing else. *)
Lemma configure_term_logger_setup_run σ h :
  __term_handler (self σ) = Some h →
  configure_term_logger_setup σ =
  (Ok (), {| self := self σ;
             world := with_heap (alter (set_h_level (__term_setup_loglevel (self σ))) h)
                        (world σ) |}).
Proof. intros H. unfold configure_term_logger_setup. exec. rewrite H. reflexivity. Qed.


(** * Further properties of the code *)

(** ** The formatter *)

Lemma get_level_by_value_owned name d :
  (name, d) ∈ levels → __get_level_by_value (level d) = (Some name, Some d).
Proof.
  intros Hin. unfold levels in Hin.
  repeat (apply elem_of_cons in Hin as [Hin|Hin]; [injection Hin as -> ->; by vm_compute|]).
  by apply elem_of_nil in Hin.
Qed.

(** X1: for a record at the rank of a registered level, [ColorFormatter.format]
    wraps the base rendering in that level's colour code and the reset code,
    and puts three blanks in front of it for "substep" and for no other
    level. *)
Theorem color_format_of_registered_rank
    (name : string) (d : LevelInfo) (fmt : template) (record : LogRecord) :
  (name, d) ∈ levels →
  levelno record = level d →
  ColorFormatter_format fmt record =
  colored.code (color d)
    +:+ (if bool_decide (name = "substep") then "   " else "")
    +:+ Formatter_format fmt record
    +:+ colored.code colored.RESET.
Proof.
  intros Hin Hno. unfold ColorFormatter_format.
  rewrite Hno, (get_level_by_value_owned _ _ Hin).
  destruct (decide (name = "substep")) as [->|Hne].
  - by rewrite !bool_decide_true.
  - rewrite !bool_decide_false; [done|done|congruence].
Qed.

Lemma color_format_of_registered_rank_witness :
  let record := {| levelno := 22; levelname := "SUBSTEP"; message := "m";
                   logging.step := " 1.1"; asctime := "" |} in
  ColorFormatter_format default_format record =
  colored.code colored.light_gray +:+ "   " +:+ "[SUBSTEP 1.1] - m"
    +:+ colored.code colored.RESET.
Proof.
  intros record.
  apply (color_format_of_registered_rank "substep"
           {| level := 22; color := colored.light_gray |} default_format record); [|done].
  unfold levels. do 6 right. left.
Defined.

(** ** Resolving a level name, continued *)

Lemma dict_get_elem {V} (d : list (string * V)) k v :
  dict_get d k = Some v → (k, v) ∈ d.
Proof.
  induction d as [|[k' v'] d IH]; simpl; [done|].
  destruct (String.eqb_spec k' k) as [->|_].
  - intros [= ->]. left.
  - intros H. right. by apply IH.
Qed.

Lemma first_containing_cases n (items : list (string * LevelInfo)) :
  first_containing n items = n ∨
  ∃ k d, (k, d) ∈ items ∧ first_containing n items = k.
Proof.
  induction items as [|[k d] items IH]; simpl; [by left|].
  destruct (str.contains n k).
  - right. exists k, d. split; [left | done].
  - destruct IH as [IH|(k' & d' & Hin & IH)]; [by left|].
    right. exists k', d'. split; [by right | done].
Qed.

Lemma dict_get_levels_key k d : (k, d) ∈ levels → dict_get levels k = Some d.
Proof.
  intros Hin. unfold levels in Hin.
  repeat (apply elem_of_cons in Hin as [Hin|Hin]; [injection Hin as -> ->; reflexivity|]).
  by apply elem_of_nil in Hin.
Qed.

(** X2: whatever the name, resolution answers the rank of one of the nine
    registered levels. *)
Theorem map_correct_level_answers_registered_rank (level_name : string) :
  ∃ name d, (name, d) ∈ levels ∧ __map_correct_level level_name = Ok (level d).
Proof.
  unfold __map_correct_level.
  change (dict_getitem levels "info") with (Ok {| level := INFO; color := colored.WHITE |}).
  cbv zeta. set (n := first_containing (normalise level_name) levels).
  destruct (dict_get levels n) as [d|] eqn:Hget.
  - exists n, d. split; [by apply dict_get_elem | done].
  - exists "info", {| level := INFO; color := colored.WHITE |}.
    split; [|done]. unfold levels. right. left.
Qed.

(** X3: a name that equals a registered level name once it is normalised
    (lower case; blanks, hyphens and underscores removed) resolves to that
    level's rank. *)
Theorem map_correct_level_of_registered_name
    (level_name name : string) (d : LevelInfo) :
  (name, d) ∈ levels →
  normalise level_name = name →
  __map_correct_level level_name = Ok (level d).
Proof.
  intros Hin Hn. unfold __map_correct_level. rewrite Hn. clear Hn.
  unfold levels in Hin.
  repeat (apply elem_of_cons in Hin as [Hin|Hin]; [injection Hin as -> ->; reflexivity|]).
  by apply elem_of_nil in Hin.
Qed.

Lemma map_correct_level_of_registered_name_witness :
  __map_correct_level "Sub-Step" = Ok 22 ∧ __map_correct_level "CRITICAL" = Ok 50.
Proof.
  split.
  - apply (map_correct_level_of_registered_name "Sub-Step" "substep"
             {| level := 22; color := colored.light_gray |}); [|reflexivity].
    unfold levels. do 6 right. left.
  - apply (map_correct_level_of_registered_name "CRITICAL" "critical"
             {| level := CRITICAL; color := colored.RED |}); [|reflexivity].
    unfold levels. do 4 right. left.
Defined.

Lemma first_containing_first n (items : list (string * LevelInfo)) i k d :
  items !! i = Some (k, d) →
  str.contains n k = true →
  (∀ j k' d', (j < i)%nat → items !! j = Some (k', d') → str.contains n k' = false) →
  first_containing n items = k.
Proof.
  revert i. induction items as [|[k0 d0] items IH]; intros i Hi Hc Hbefore; [done|].
  destruct i as [|i]; simpl in *.
  - injection Hi as -> ->. by rewrite Hc.
  - rewrite (Hbefore 0%nat k0 d0); [|lia|done].
    apply (IH i); [done..|]. intros j k' d' Hj Hl.
    apply (Hbefore (S j) k' d'); [lia|done].
Qed.

(** X4: a name is matched as a substring, in table order: it resolves to
    the rank of the first registered level whose name contains its
    normalised form, so an abbreviation picks the first level it fits. *)
Theorem map_correct_level_first_match
    (level_name : string) (i : nat) (k : string) (d : LevelInfo) :
  levels !! i = Some (k, d) →
  str.contains (normalise level_name) k = true →
  (∀ j k' d', (j < i)%nat → levels !! j = Some (k', d') →
     str.contains (normalise level_name) k' = false) →
  __map_correct_level level_name = Ok (level d).
Proof.
  intros Hi Hc Hbefore. unfold __map_correct_level.
  rewrite (first_containing_first _ _ _ _ _ Hi Hc Hbefore).
  rewrite (dict_get_levels_key k d); [done|].
  apply list_elem_of_lookup. by exists i.
Qed.

Lemma map_correct_level_first_match_witness :
  __map_correct_level "st" = Ok 21 ∧ __map_correct_level "warn" = Ok 30.
Proof.
  split.
  - apply (map_correct_level_first_match "st" 5 "step"
             {| level := 21; color := colored.WHITE |}); [reflexivity..|].
    intros j k' d' Hj Hl.
    do 5 (destruct j as [|j]; [by injection Hl as <- _|]). lia.
  - apply (map_correct_level_first_match "warn" 2 "warning"
             {| level := WARNING; color := colored.YELLOW |}); [reflexivity..|].
    intros j k' d' Hj Hl.
    do 2 (destruct j as [|j]; [by injection Hl as <- _|]). lia.
Defined.

(** X5: a name of which nothing is left after normalisation (the empty
    string, blanks, hyphens, underscores) resolves to the rank of "debug",
    the first entry of the table, and not to the "info" default. *)
Theorem map_correct_level_of_blank_name (level_name : string) :
  normalise level_name = "" →
  __map_correct_level level_name = Ok DEBUG.
Proof. intros Hn. unfold __map_correct_level. by rewrite Hn. Qed.

Lemma map_correct_level_of_blank_name_witness :
  __map_correct_level " -_ " = Ok DEBUG.
Proof. apply (map_correct_level_of_blank_name " -_ "). reflexivity. Defined.

(** ** The leveled calls *)

(** X6: a call of [debug], [info], [warning], [error], [passed] or [fail]
    with [enable] false or without parts returns without raising and leaves
    the state as it was: nothing is written anywhere. *)
Theorem disabled_or_empty_call_is_noop
    (σ : State) (args : list string) (sep end_ : string) (enable : bool) :
  enable = false ∨ args = [] →
  debug args sep end_ enable σ = (Ok (), σ) ∧
  info args sep end_ enable σ = (Ok (), σ) ∧
  warning args sep end_ enable σ = (Ok (), σ) ∧
  error args sep end_ enable σ = (Ok (), σ) ∧
  passed args sep end_ enable σ = (Ok (), σ) ∧
  fail args sep end_ enable σ = (Ok (), σ).
Proof.
  intros H.
  assert (truthy enable args = false) as Hf.
  { unfold truthy. destruct H as [->| ->]; [done|]. by rewrite andb_false_r. }
  unfold debug, info, warning, error, passed, fail. rewrite Hf. by split_and!.
Qed.

Lemma disabled_or_empty_call_is_noop_witness :
  info ["x"] " " "" false log = (Ok (), log) ∧ passed [] " " "" true log = (Ok (), log).
Proof.
  split.
  - apply (disabled_or_empty_call_is_noop log ["x"] " " "" false). by left.
  - apply (disabled_or_empty_call_is_noop log [] " " "" true). by right.
Defined.

(** X7: while no destination is attached, an [info] call with parts is
    lost without a trace, and a [warning], [error] or [fail] call goes to the
    last-resort handler on standard error as the bare message, without level
    name or template. *)
Theorem calls_without_destination
    (σ : State) (args : list string) (sep end_ : string) :
  wf σ →
  handlers (logger (world σ)) = [] →
  args ≠ [] →
  let msg := str.join sep args +:+ end_ in
  let stray := {| self := self σ;
                  world := with_out (λ o, o ++ [LastResort (msg +:+ terminator)]) (world σ) |} in
  ∃ σ', info args sep end_ true σ = (Ok (), σ') ∧ out (world σ') = out (world σ) ∧
  warning args sep end_ true σ = (Ok (), stray) ∧
  error args sep end_ true σ = (Ok (), stray) ∧
  fail args sep end_ true σ = (Ok (), stray).
Proof.
  intros Hwf Hnone Hargs msg stray.
  unfold info, warning, error, fail, truthy.
  rewrite bool_decide_true by done. simpl.
  rewrite !Logger_log_run by done.
  rewrite !bool_decide_true by (unfold INFO, WARNING, ERROR; lia).
  change (_log (PyInt 31) ?m ?e σ) with (_log (PyInt 31) m e σ).
  eexists. split; [apply _log_run|].
  split; [simpl; unfold dispatch; rewrite Hnone; simpl; apply app_nil_r|].
  split_and!.
  - rewrite _log_run. unfold dispatched, dispatch. by rewrite Hnone.
  - rewrite _log_run. unfold dispatched, dispatch. by rewrite Hnone.
  - change (_log (PyInt 31) msg "" σ = (Ok (), stray)).
    rewrite _log_run. unfold dispatched, dispatch. by rewrite Hnone.
Qed.

Lemma calls_without_destination_witness :
  ∃ σ', warning ["careful"] " " "" true log = (Ok (), σ') ∧
        out (world σ') = [LastResort ("careful" +:+ terminator)].
Proof.
  destruct (calls_without_destination log ["careful"] " " "" wf_log eq_refl)
    as (σ' & _ & _ & Hw & _); [discriminate|].
  eexists. split; [exact Hw | reflexivity].
Defined.

(** ** The threshold properties *)

(** X8: the three terminal thresholds can be assigned and read back: the
    assignment changes that one attribute of the router and nothing in the
    process, so no attached destination changes its level by it. *)
Theorem threshold_property_set_get (σ : State) (p : property) (v : Z) :
  p ≠ stepn → p ≠ substepn →
  ∃ σ', setattr p v σ = (Ok (), σ') ∧
        getattr p σ' = (Ok v, σ') ∧
        world σ' = world σ ∧
        (∀ q, q ≠ p → fget q (self σ') = fget q (self σ)) ∧
        __term_handler (self σ') = __term_handler (self σ) ∧
        __setup_file_handler (self σ') = __setup_file_handler (self σ).
Proof.
  intros H1 H2. destruct p; try done.
  all: eexists; split; [reflexivity|]; split_and!; try reflexivity.
  all: intros q Hq; by destruct q.
Qed.

Lemma threshold_property_set_get_witness :
  ∃ σ', setattr term_call_loglevel 40 log = (Ok (), σ') ∧
        getattr term_call_loglevel σ' = (Ok 40, σ').
Proof.
  destruct (threshold_property_set_get log term_call_loglevel 40) as (σ' & H1 & H2 & _);
    [discriminate..|].
  by exists σ'.
Defined.

Lemma set_level_only_handler_changed σ h H l :
  heap (world σ) !! h = Some H →
  only_handler_changed σ
    {| self := self σ; world := with_heap (alter (set_h_level l) h) (world σ) |}
    h (set_h_level l H).
Proof.
  intros Hh. unfold only_handler_changed. simpl. split_and!; try done.
  - by rewrite list_lookup_alter_eq, Hh.
  - intros h' Hne. by rewrite list_lookup_alter_ne.
  - apply length_alter.
Qed.

Lemma configure_term_logger_call_run σ h :
  __term_handler (self σ) = Some h →
  configure_term_logger_call σ =
  (Ok (), {| self := self σ;
             world := with_heap (alter (set_h_level (__term_call_loglevel (self σ))) h)
                        (world σ) |}).
Proof. intros H. unfold configure_term_logger_call. exec. rewrite H. reflexivity. Qed.

(** X9: with a terminal attached, [configure_term_logger_setup] and
    [configure_term_logger_call] set the level of the handler the router
    refers to, to the setup resp. call threshold, and change nothing else:
    every other handler keeps its level, the attached set, the output and
    the router object stay as they were. *)
Theorem set_terminal_threshold_changes_one_handler
    (σ : State) (h : nat) (H : Handler) :
  __term_handler (self σ) = Some h →
  heap (world σ) !! h = Some H →
  (∃ σ', configure_term_logger_setup σ = (Ok (), σ') ∧
         only_handler_changed σ σ' h (set_h_level (__term_setup_loglevel (self σ)) H)) ∧
  (∃ σ', configure_term_logger_call σ = (Ok (), σ') ∧
         only_handler_changed σ σ' h (set_h_level (__term_call_loglevel (self σ)) H)).
Proof.
  intros Href Hh. split; eexists; split.
  - by apply configure_term_logger_setup_run.
  - by apply set_level_only_handler_changed.
  - by apply configure_term_logger_call_run.
  - by apply set_level_only_handler_changed.
Qed.

Lemma set_terminal_threshold_changes_one_handler_witness :
  ∃ σ σ', init_term_handler (Some DEBUG) None log = (Ok (), σ) ∧
          configure_term_logger_call σ = (Ok (), σ') ∧
          h_level <$> heap (world σ') !! 0%nat = Some INFO.
Proof.
  pose (σ := (init_term_handler (Some DEBUG) None log).2).
  destruct (set_terminal_threshold_changes_one_handler σ 0
              {| h_sink := stderr; h_level := DEBUG;
                 h_formatter := Some (ColorFormatter default_format) |}
              eq_refl eq_refl)
    as (_ & σ' & Hrun & _ & Hl & _).
  exists σ, σ'. split; [by vm_compute|]. split; [exact Hrun|]. by rewrite Hl.
Defined.

(** ** Attaching the terminal, continued *)

Lemma bind_Ok {A B} (m : M A) (k : A → M B) σ a σ1 :
  m σ = (Ok a, σ1) → (m ≫= k) σ = k a σ1.
Proof. intros H. unfold mbind, call_bind. by rewrite H. Qed.

Lemma bind_Raise {A B} (m : M A) (k : A → M B) σ e σ1 :
  m σ = (Raise e, σ1) → (m ≫= k) σ = (Raise e, σ1).
Proof. intros H. unfold mbind, call_bind. by rewrite H. Qed.

(** X10: a terminal destination that a later [init_term_handler] has
    superseded keeps the threshold it was created with: after two attaches
    (each with a template the formatter accepts), assigning the setup
    threshold and applying it changes the level of the second terminal
    only, the first stays attached at its old level. *)
Theorem superseded_terminal_keeps_threshold
    (σ : State) (level1 level2 : option Z) (fmt1 fmt2 : option template) (v : Z) :
  wf σ →
  let n := length (heap (world σ)) in
  let R1 := default (__term_config_loglevel (self σ)) level1 in
  let T1 := default (__term_format (self σ)) fmt1 in
  let T2 := default T1 fmt2 in
  accepted T1 →
  accepted T2 →
  ∃ σ',
    (init_term_handler level1 fmt1;; init_term_handler level2 fmt2;;
     setattr term_setup_loglevel v;; configure_term_logger_setup) σ = (Ok (), σ') ∧
    handlers (logger (world σ')) = handlers (logger (world σ)) ++ [n; S n] ∧
    h_level <$> heap (world σ') !! n = Some R1 ∧
    h_level <$> heap (world σ') !! S n = Some v.
Proof.
  intros Hwf n R1 T1 T2 Hacc1 Hacc2.
  destruct (init_term_handler_post σ level1 fmt1 Hwf Hacc1)
    as (σ1 & H1 & E1 & Hwf1 & Hheap1 & _ & HR1 & Hh1 & _ & _ & _ & _ & _
        & _ & _ & _ & _ & HT1).
  assert (accepted (default (__term_format (self σ1)) fmt2)) as Hacc2'
    by (by rewrite HT1).
  destruct (init_term_handler_post σ1 level2 fmt2 Hwf1 Hacc2')
    as (σ2 & H2 & E2 & Hwf2 & Hheap2 & _ & _ & Hh2 & _ & _ & _ & Href2 & _).
  assert (length (heap (world σ1)) = S n) as Hlen1.
  { rewrite Hheap1, length_app. simpl. unfold n. lia. }
  rewrite Hlen1 in *.
  set (σ3 := {| self := set___term_setup_loglevel v (self σ2); world := world σ2 |}).
  assert (heap (world σ2) !! S n = Some H2) as HSn.
  { rewrite Hheap2. apply list_lookup_middle. done. }
  assert (heap (world σ2) !! n = Some H1) as Hn.
  { rewrite Hheap2, Hheap1, <- app_assoc. by apply list_lookup_middle. }
  eexists. split.
  - rewrite (bind_Ok _ _ _ _ _ E1), (bind_Ok _ _ _ _ _ E2).
    rewrite (bind_Ok _ _ σ2 () σ3) by reflexivity.
    apply (configure_term_logger_setup_run σ3 (S n)). exact Href2.
  - simpl. split_and!.
    + by rewrite Hh2, Hh1, <- app_assoc.
    + rewrite list_lookup_alter_ne by lia. rewrite Hn. simpl. by rewrite HR1.
    + by rewrite list_lookup_alter_eq, HSn.
Qed.

Lemma superseded_terminal_keeps_threshold_witness :
  ∃ σ',
    (init_term_handler (Some DEBUG) None;; init_term_handler None None;;
     setattr term_setup_loglevel ERROR;; configure_term_logger_setup) log = (Ok (), σ') ∧
    h_level <$> heap (world σ') !! 0%nat = Some DEBUG ∧
    h_level <$> heap (world σ') !! 1%nat = Some ERROR.
Proof.
  destruct (superseded_terminal_keeps_threshold log (Some DEBUG) None None None ERROR wf_log)
    as (σ' & E & _ & H0 & H1); [reflexivity | reflexivity |].
  by exists σ'.
Defined.

(** X22: with a template the formatter rejects (one in which no directive
    is found), [init_term_handler] raises [ValueError] after it has created
    the terminal handler, given it its level and made it the router's
    terminal reference: the handler has no formatter and is not attached,
    yet the router now refers to it, so that setting the terminal threshold
    succeeds and changes nothing that is attached. *)
Theorem attach_terminal_rejected_template
    (σ : State) (level : option Z) (fmt : option template) :
  let n := length (heap (world σ)) in
  let R := default (__term_config_loglevel (self σ)) level in
  let T := default (__term_format (self σ)) fmt in
  ¬ accepted T →
  ∃ σ' σ'',
    init_term_handler level fmt σ = (Raise ValueError, σ') ∧
    logger (world σ') = logger (world σ) ∧
    heap (world σ') =
      heap (world σ) ++ [ {| h_sink := stderr; h_level := R; h_formatter := None |} ] ∧
    fs (world σ') = fs (world σ) ∧ out (world σ') = out (world σ) ∧
    __term_handler (self σ') = Some n ∧
    __term_config_loglevel (self σ') = R ∧
    __term_format (self σ') = T ∧
    configure_term_logger_setup σ' = (Ok (), σ'') ∧
    logger (world σ'') = logger (world σ).
Proof.
  intros n R T Hrej.
  assert (__term_format (term_configured level fmt (self σ)) = T) as HT
    by (unfold T; by destruct level, fmt).
  pose proof (init_term_handler_rejected level fmt σ) as Hrun. cbv zeta in Hrun.
  rewrite HT in Hrun. specialize (Hrun Hrej).
  eexists _, _. split; [exact Hrun|]. simpl.
  split_and!; try done; try (unfold R, T; by destruct level, fmt).
Qed.

Lemma attach_terminal_rejected_template_witness :
  ∃ σ' σ'',
    init_term_handler (Some WARNING) (Some [Lit "plain text"]) log = (Raise ValueError, σ') ∧
    handlers (logger (world σ')) = [] ∧
    heap (world σ') = [ {| h_sink := stderr; h_level := WARNING; h_formatter := None |} ] ∧
    __term_handler (self σ') = Some 0%nat ∧
    configure_term_logger_setup σ' = (Ok (), σ'').
Proof.
  destruct (attach_terminal_rejected_template log (Some WARNING) (Some [Lit "plain text"]))
    as (σ' & σ'' & E & Hlg & Hheap & _ & _ & Href & _ & _ & Hc & _).
  - intros H. vm_compute in H. discriminate H.
  - exists σ', σ''. split_and!; try done. by rewrite Hlg.
Defined.

(** ** Level names *)

Lemma custom_level_names_lookup (m : gmap Z string) :
  custom_level_names m !! 21 = Some "STEP" ∧
  custom_level_names m !! 22 = Some "SUBSTEP" ∧
  custom_level_names m !! 23 = Some "PASS" ∧
  custom_level_names m !! 31 = Some "FAIL" ∧
  ∀ z, z ≠ 21 → z ≠ 22 → z ≠ 23 → z ≠ 31 → custom_level_names m !! z = m !! z.
Proof.
  unfold custom_level_names. split_and!.
  - do 3 (rewrite lookup_insert_ne by done). apply lookup_insert_eq.
  - do 2 (rewrite lookup_insert_ne by done). apply lookup_insert_eq.
  - rewrite lookup_insert_ne by done. apply lookup_insert_eq.
  - apply lookup_insert_eq.
  - intros z ? ? ? ?. by do 4 (rewrite lookup_insert_ne by done).
Qed.

Lemma init_term_handler_names level fmt σ r σ' :
  init_term_handler level fmt σ = (r, σ') →
  (r = Ok () ∨ r = Raise ValueError) ∧
  _levelToName (world σ') = custom_level_names (_levelToName (world σ)).
Proof.
  unfold init_term_handler.
  destruct level as [l|], fmt as [f|]; exec.
  all: match goal with |- context [Formatter__init__ ?t] =>
         destruct (Formatter__init__ t) as [t'|e] eqn:Hf end.
  all: exec; intros [= <- <-]; split; try reflexivity; auto.
  all: right; f_equal; revert Hf; unfold Formatter__init__.
  all: by destruct (validate _); intros [= <-].
Qed.

(** X11: the names of the four custom levels are registered by every
    [init_term_handler] (through [ColorFormatter.__init__]), whether it
    returns or the formatter rejects the template: afterwards the records
    at ranks 21, 22, 23 and 31 are named STEP, SUBSTEP, PASS and FAIL, and
    the name of every other rank is what it was. *)
Theorem terminal_attach_registers_level_names
    (σ : State) (level : option Z) (fmt : option template) :
  ∃ r σ', init_term_handler level fmt σ = (r, σ') ∧
    (r = Ok () ∨ r = Raise ValueError) ∧
    (∀ msg extra_step,
       levelname (make_record (world σ') 21 msg extra_step) = "STEP" ∧
       levelname (make_record (world σ') 22 msg extra_step) = "SUBSTEP" ∧
       levelname (make_record (world σ') 23 msg extra_step) = "PASS" ∧
       levelname (make_record (world σ') 31 msg extra_step) = "FAIL") ∧
    (∀ z msg extra_step, z ≠ 21 → z ≠ 22 → z ≠ 23 → z ≠ 31 →
       levelname (make_record (world σ') z msg extra_step) =
       levelname (make_record (world σ) z msg extra_step)).
Proof.
  destruct (init_term_handler level fmt σ) as [r σ'] eqn:E.
  destruct (init_term_handler_names _ _ _ _ _ E) as [Hr Hnames].
  destruct (custom_level_names_lookup (_levelToName (world σ)))
    as (H21 & H22 & H23 & H31 & Hother).
  exists r, σ'. split; [done|]. split; [done|].
  unfold make_record. simpl. rewrite Hnames. split.
  - intros _ _. by rewrite H21, H22, H23, H31.
  - intros z _ _ ? ? ? ?. by rewrite Hother.
Qed.

Lemma terminal_attach_registers_level_names_witness :
  ∃ σ', init_term_handler None (Some [Lit "no directive"]) log = (Raise ValueError, σ') ∧
        levelname (make_record (world σ') 31 "m" "") = "FAIL" ∧
        levelname (make_record (world log) 31 "m" "") = "Level 31".
Proof.
  destruct (terminal_attach_registers_level_names log None (Some [Lit "no directive"]))
    as (r & σ' & E & _ & Hn & _).
  exists σ'. split; [|split; [apply Hn | by vm_compute]].
  rewrite E. f_equal.
  assert (r = (init_term_handler None (Some [Lit "no directive"]) log).1) as ->
    by (by rewrite E).
  by vm_compute.
Defined.

Lemma append_nil_r s : s +:+ "" = s.
Proof.
  induction s as [|c s IH]; [done|].
  change (String c (s +:+ "") = String c s). by rewrite IH.
Qed.

Lemma ljust_0 s : str.ljust 0 s = s.
Proof. unfold str.ljust. simpl. apply append_nil_r. Qed.

Lemma default_format_renders r :
  Formatter_format default_format r =
  "[" +:+ levelname r +:+ logging.step r +:+ "] - " +:+ message r.
Proof.
  unfold default_format. simpl. rewrite !ljust_0, append_nil_r. reflexivity.
Qed.

Lemma append_assoc a b c : (a +:+ b) +:+ c = a +:+ (b +:+ c).
Proof.
  induction a as [|x a IH]; [done|].
  change (String x ((a +:+ b) +:+ c) = String x (a +:+ (b +:+ c))). by rewrite IH.
Qed.

(** X12: the line a destination with the router's default template and a
    plain formatter (a setup file) gets from [fail] reads
    "[FAIL] - message" only once the level names are registered; on a
    router whose registry has no name for rank 31, as before any terminal
    was attached, it reads "[Level 31] - message". *)
Theorem fail_line_in_setup_file
    (σ : State) (h : nat) (H : Handler) (args : list string) (sep end_ : string) :
  wf σ →
  h ∈ handlers (logger (world σ)) →
  heap (world σ) !! h = Some H →
  h_formatter H = Some (Formatter default_format) →
  h_level H ≤ 31 →
  args ≠ [] →
  let msg := str.join sep args +:+ end_ in
  ∃ record,
    fail args sep end_ true σ = (Ok (), dispatched σ record) ∧
    ∀ name,
      (_levelToName (world σ) !! 31 = Some name ∨
       (_levelToName (world σ) !! 31 = None ∧ name = "Level 31")) →
      writes_to h (dispatch (world σ) record) =
      [ "[" +:+ name +:+ "] - " +:+ msg +:+ terminator ].
Proof.
  intros Hwf Hin Hh Hfmt Hlvl Hargs msg.
  exists (make_record (world σ) 31 msg "").
  split.
  - unfold fail, truthy. rewrite bool_decide_true by done. simpl.
    exact (_log_run σ 31 msg "").
  - intros name Hname.
    rewrite (writes_to_dispatch _ _ _ _ Hwf Hin Hh).
    rewrite bool_decide_true by done.
    unfold Handler_format. rewrite Hfmt. unfold format_with.
    rewrite default_format_renders.
    assert (levelname (make_record (world σ) 31 msg "") = name) as ->.
    { unfold make_record. simpl.
      destruct Hname as [->|[-> ->]]; [done | by vm_compute]. }
    change (logging.step (make_record (world σ) 31 msg "")) with "".
    change (message (make_record (world σ) 31 msg "")) with msg.
    rewrite !append_assoc. reflexivity.
Qed.

Lemma fail_line_in_setup_file_witness :
  ∃ σ record,
    init_setup_logger "reports/t_setup.log" None None log = (Ok (), σ) ∧
    fail ["boom"] " " "" true σ = (Ok (), dispatched σ record) ∧
    writes_to 0 (dispatch (world σ) record) =
    [ "[Level 31] - boom" +:+ terminator ].
Proof.
  pose (σ := (init_setup_logger "reports/t_setup.log" None None log).2).
  destruct (fail_line_in_setup_file σ 0
              {| h_sink := file ["reports"; "t_setup.log"]; h_level := 20;
                 h_formatter := Some (Formatter default_format) |}
              ["boom"] " " "")
    as (record & Hrun & Hline).
  - apply (wf_init_setup_logger "reports/t_setup.log" None None log (Ok ()));
      [apply wf_log | by vm_compute].
  - by left.
  - by vm_compute.
  - reflexivity.
  - simpl. lia.
  - discriminate.
  - exists σ, record. split; [by vm_compute|]. split; [exact Hrun|].
    apply (Hline "Level 31"). right. split; [by vm_compute | done].
Defined.

(** ** Attaching the setup file, continued *)

Lemma world_with_fs_same w : with_fs (λ _, fs w) w = w.
Proof. by destruct w. Qed.

(** X13: when the parent of the path is a regular file, or lies below
    one, [init_setup_logger] raises ([FileExistsError] resp.
    [NotADirectoryError]) and attaches nothing: the process is untouched.
    The level and template it was given are stored in the router all the
    same, since that happens before the directories are made. *)
Theorem attach_setup_file_blocked_parent
    (σ : State) (path : string) (level : option Z) (fmt : option template) :
  let dir := parent (Path path) in
  stat (fs (world σ)) dir = is_file ∨ stat (fs (world σ)) dir = ENOTDIR →
  init_setup_logger path level fmt σ =
  (Raise (if bool_decide (stat (fs (world σ)) dir = is_file)
          then FileExistsError else NotADirectoryError),
   {| self := setup_configured level fmt (self σ); world := world σ |}).
Proof.
  intros dir H. apply init_setup_logger_mkdir_fails. by apply mkdir_parents_blocked.
Qed.

Lemma attach_setup_file_blocked_parent_witness :
  ∃ σ, init_setup_logger "reports" None None log = (Ok (), σ) ∧
       init_setup_logger "reports/t_setup.log" (Some ERROR) None σ =
       (Raise FileExistsError,
        {| self := setup_configured (Some ERROR) None (self σ); world := world σ |}).
Proof.
  pose (σ := (init_setup_logger "reports" None None log).2).
  exists σ. split; [by vm_compute|].
  pose proof (attach_setup_file_blocked_parent σ "reports/t_setup.log" (Some ERROR) None)
    as H.
  cbv zeta in H. rewrite H; [|left; by vm_compute].
  rewrite bool_decide_true by (by vm_compute). reflexivity.
Defined.

(** X14: when the path names a directory (the empty path and ["."] name
    the working directory), [init_setup_logger] raises [IsADirectoryError];
    no handler is created or attached and the file system is unchanged. *)
Theorem attach_setup_file_on_directory
    (σ : State) (path : string) (level : option Z) (fmt : option template) :
  stat (fs (world σ)) (Path path) = is_dir →
  init_setup_logger path level fmt σ =
  (Raise IsADirectoryError,
   {| self := setup_configured level fmt (self σ); world := world σ |}).
Proof.
  intros Hdir.
  rewrite (init_setup_logger_open_fails path level fmt σ (fs (world σ)) IsADirectoryError).
  - by rewrite world_with_fs_same.
  - by apply mkdir_parents_of_dir, stat_parent_of_dir.
  - by apply open_append_of_dir.
Qed.

Lemma attach_setup_file_on_directory_witness :
  init_setup_logger "" None None log =
  (Raise IsADirectoryError,
   {| self := setup_configured None None (self log); world := world log |}).
Proof. apply (attach_setup_file_on_directory log "" None None). reflexivity. Defined.

(** X15: whatever its outcome, [init_setup_logger] removes no entry of
    the file system, keeps the working directory, writes no record and
    leaves every existing handler object as it is; when it raises, the
    attached set is unchanged too (the handler object it may have created
    by then is not attached). *)
Theorem attach_setup_file_preserves
    (σ : State) (path : string) (level : option Z) (fmt : option template)
    (r : result ()) (σ' : State) :
  wf σ →
  init_setup_logger path level fmt σ = (r, σ') →
  entries (fs (world σ)) ⊆ entries (fs (world σ')) ∧
  cwd (fs (world σ')) = cwd (fs (world σ)) ∧
  out (world σ') = out (world σ) ∧
  (∀ h H, heap (world σ) !! h = Some H → heap (world σ') !! h = Some H) ∧
  (r ≠ Ok () → logger (world σ') = logger (world σ)).
Proof.
  intros Hwf.
  assert (∀ h H X, heap (world σ) !! h = Some H →
                   (heap (world σ) ++ [X]) !! h = Some H) as Hkeep.
  { intros h H X Hh. rewrite lookup_app_l; [done|]. by eapply lookup_lt_Some. }
  destruct (init_setup_logger_cases path level fmt σ Hwf)
    as [[e1 Hmk]|(fs1 & Hmk & Hsub1 & Hcwd1 & _
                  & [[e2 Hop]|(fs2 & Hop & Hsub2 & Hcwd2 & _)])].
  - rewrite (init_setup_logger_mkdir_fails _ _ _ _ _ Hmk). intros [= <- <-].
    by split_and!.
  - rewrite (init_setup_logger_open_fails _ _ _ _ _ _ Hmk Hop). intros [= <- <-].
    simpl. by split_and!.
  - destruct (decide (accepted (__setup_format (setup_configured level fmt (self σ)))))
      as [Hacc|Hrej].
    + rewrite (init_setup_logger_run _ _ _ _ _ _ Hwf Hmk Hop Hacc). intros [= <- <-].
      simpl. split_and!; [by etrans|congruence|done|by intros; apply Hkeep|done].
    + rewrite (init_setup_logger_rejected _ _ _ _ _ _ Hmk Hop Hrej). intros [= <- <-].
      simpl. split_and!; [by etrans|congruence|done|by intros; apply Hkeep|done].
Qed.

Lemma attach_setup_file_preserves_witness :
  ∃ σ', init_setup_logger "a/b/c.log" None (Some [Lit "no directive"]) log
          = (Raise ValueError, σ') ∧
        entries (fs (world log)) ⊆ entries (fs (world σ')) ∧
        out (world σ') = out (world log) ∧
        logger (world σ') = logger (world log).
Proof.
  pose (σ' := (init_setup_logger "a/b/c.log" None (Some [Lit "no directive"]) log).2).
  destruct (attach_setup_file_preserves log "a/b/c.log" None (Some [Lit "no directive"])
              (Raise ValueError) σ' wf_log)
    as (H1 & _ & H2 & _ & H3); [by vm_compute|].
  exists σ'. split; [by vm_compute|]. split_and!; [done|done|]. by apply H3.
Defined.

(** X23: with a path that can be attached but a template the formatter
    rejects, [init_setup_logger] raises [ValueError] only after the
    directories are made and the file is opened: the file exists, the
    handler object on it has its level and is the router's setup-file
    reference, but it has no formatter and is not attached. *)
Theorem attach_setup_file_rejected_template
    (σ : State) (path : string) (level : option Z) (fmt : option template) :
  wf σ →
  let n := length (heap (world σ)) in
  let R := default (__setup_file_loglevel (self σ)) level in
  let T := default (__setup_format (self σ)) fmt in
  ¬ accepted T →
  attachable (fs (world σ)) path →
  ∃ σ',
    init_setup_logger path level fmt σ = (Raise ValueError, σ') ∧
    stat (fs (world σ')) (parent (Path path)) = is_dir ∧
    stat (fs (world σ')) (Path path) = is_file ∧
    logger (world σ') = logger (world σ) ∧
    heap (world σ') =
      heap (world σ) ++
      [ {| h_sink := file (abspath (fs (world σ)) path); h_level := R;
           h_formatter := None |} ] ∧
    out (world σ') = out (world σ) ∧
    __setup_file_handler (self σ') = Some n.
Proof.
  intros Hwf n R T Hrej Hpre.
  assert (__setup_format (setup_configured level fmt (self σ)) = T) as HT
    by (unfold T; by destruct level, fmt).
  destruct (ensure_and_open _ _ (wf_tree _ Hwf) Hpre)
    as (fs1 & fs2 & Hmk & Hop & Hdir & Hfile & _).
  destruct (mkdir_parents_ext _ _ _ _ (wf_tree _ Hwf) Hmk) as (_ & Hcwd1 & _).
  pose proof (init_setup_logger_rejected path level fmt σ fs1 fs2 Hmk Hop) as Hrun.
  cbv zeta in Hrun. rewrite HT in Hrun. specialize (Hrun Hrej).
  rewrite (abspath_ext _ _ _ Hcwd1) in Hrun.
  eexists. split; [exact Hrun|]. simpl.
  split_and!; try done; try (unfold R; by destruct level, fmt).
Qed.

Lemma attach_setup_file_rejected_template_witness :
  ∃ σ',
    init_setup_logger "reports/t_setup.log" None (Some [Lit "plain text"]) log
      = (Raise ValueError, σ') ∧
    stat (fs (world σ')) (Path "reports/t_setup.log") = is_file ∧
    handlers (logger (world σ')) = [] ∧
    __setup_file_handler (self σ') = Some 0%nat.
Proof.
  destruct (attach_setup_file_rejected_template log "reports/t_setup.log" None
              (Some [Lit "plain text"]) wf_log)
    as (σ' & E & _ & Hfile & Hlg & _ & _ & Href).
  - intros H. vm_compute in H. discriminate H.
  - apply (bool_decide_unpack _). by vm_compute.
  - exists σ'. split_and!; try done. by rewrite Hlg.
Defined.

(** ** The hooks *)

Lemma bind_Ok_inv {A B} (m : M A) (k : A → M B) σ b σ' :
  (m ≫= k) σ = (Ok b, σ') → ∃ a σ1, m σ = (Ok a, σ1) ∧ k a σ1 = (Ok b, σ').
Proof.
  unfold mbind, call_bind. destruct (m σ) as [[a|e] σ1]; [|discriminate].
  intros H. by exists a, σ1.
Qed.

Lemma warning_delivers σ h H args sep end_ :
  wf σ →
  h ∈ handlers (logger (world σ)) →
  heap (world σ) !! h = Some H →
  args ≠ [] →
  delivers (warning args sep end_ true) WARNING σ h H.
Proof.
  intros Hwf Hin Hh Hargs. unfold warning, truthy.
  rewrite bool_decide_true by done. simpl.
  unfold delivers. rewrite Logger_log_run by done.
  rewrite bool_decide_true by (unfold INFO, WARNING; lia). by apply _log_delivers.
Qed.

(** X16: [pytest_configure] attaches a terminal whose threshold is the
    router's configured one, whatever the three command-line options say:
    the options are read and dropped, and the router's three thresholds are
    what they were.  The router's terminal template is one the formatter
    accepts. *)
Theorem configure_hook_ignores_options (σ : State) (options : Options) :
  wf σ →
  accepted (__term_format (self σ)) →
  let n := length (heap (world σ)) in
  ∃ σ' H,
    pytest_configure options σ = (Ok (), σ') ∧
    heap (world σ') = heap (world σ) ++ [H] ∧
    h_sink H = stderr ∧ h_level H = __term_config_loglevel (self σ) ∧
    handlers (logger (world σ')) = handlers (logger (world σ)) ++ [n] ∧
    __term_handler (self σ') = Some n ∧
    __term_config_loglevel (self σ') = __term_config_loglevel (self σ) ∧
    __term_setup_loglevel (self σ') = __term_setup_loglevel (self σ) ∧
    __term_call_loglevel (self σ') = __term_call_loglevel (self σ).
Proof.
  intros Hwf Hacc n.
  destruct (init_term_handler_post σ None None Hwf Hacc)
    as (σ' & H & E & _ & Hheap & Hs & Hl & Hh & _ & _ & _ & Href & Hc & Hsu & Hca & _).
  exists σ', H. unfold pytest_configure. by split_and!.
Qed.

Lemma configure_hook_ignores_options_witness :
  ∃ σ' H,
    pytest_configure {| opt_term_config_loglevel := Some "DEBUG";
                        opt_term_setup_loglevel := Some "ERROR";
                        opt_term_call_loglevel := None |} log = (Ok (), σ') ∧
    heap (world σ') = [H] ∧ h_level H = INFO.
Proof.
  destruct (configure_hook_ignores_options log
              {| opt_term_config_loglevel := Some "DEBUG";
                 opt_term_setup_loglevel := Some "ERROR";
                 opt_term_call_loglevel := None |} wf_log)
    as (σ' & H & E & Hheap & _ & Hl & _); [reflexivity|].
  by exists σ', H.
Defined.

(** X17: run before any terminal is attached, [pytest_runtest_setup] and
    [pytest_runtest_call] raise an attribute error and change nothing; in
    particular the setup hook stops before it makes a directory or a
    file. *)
Theorem hooks_need_the_terminal (σ : State) (testcase : string) :
  __term_handler (self σ) = None →
  pytest_runtest_setup testcase σ = (Raise AttributeError, σ) ∧
  pytest_runtest_call σ = (Raise AttributeError, σ).
Proof.
  intros H. unfold pytest_runtest_setup, pytest_runtest_call.
  assert (configure_term_logger_setup σ = (Raise AttributeError, σ)) as Hs.
  { unfold configure_term_logger_setup. exec. by rewrite H. }
  split.
  - by rewrite (bind_Raise _ _ _ _ _ Hs).
  - unfold configure_term_logger_call. exec. by rewrite H.
Qed.

Lemma hooks_need_the_terminal_witness :
  pytest_runtest_setup "test_hello" log = (Raise AttributeError, log) ∧
  pytest_runtest_call log = (Raise AttributeError, log).
Proof. apply (hooks_need_the_terminal log "test_hello"). reflexivity. Defined.

(** X18: with a terminal attached, a setup template the formatter
    accepts and a report path [./reports/<testcase>_setup.log] that can be
    attached (none of its names is [".."], the working directory exists, and
    it names a regular file or nothing yet), [pytest_runtest_setup] sets the
    terminal to the setup threshold, makes the report file with its
    directories, and attaches one more file destination on it at the
    router's setup-file threshold. *)
Theorem setup_hook_attaches_report_file
    (σ : State) (testcase : string) (ht : nat) (Ht : Handler) :
  wf σ →
  __term_handler (self σ) = Some ht →
  heap (world σ) !! ht = Some Ht →
  let report := "./reports/" +:+ testcase +:+ "_setup.log" in
  accepted (__setup_format (self σ)) →
  attachable (fs (world σ)) report →
  let n := length (heap (world σ)) in
  ∃ σ' H,
    pytest_runtest_setup testcase σ = (Ok (), σ') ∧
    wf σ' ∧
    heap (world σ') !! ht = Some (set_h_level (__term_setup_loglevel (self σ)) Ht) ∧
    heap (world σ') !! n = Some H ∧
    h_sink H = file (abspath (fs (world σ)) report) ∧
    h_level H = __setup_file_loglevel (self σ) ∧
    handlers (logger (world σ')) = handlers (logger (world σ)) ++ [n] ∧
    file_destinations (world σ') = file_destinations (world σ) ++ [n] ∧
    stat (fs (world σ')) (parent (Path report)) = is_dir ∧
    stat (fs (world σ')) (Path report) = is_file ∧
    __term_handler (self σ') = Some ht.
Proof.
  intros Hwf Href Hht report Hacc Hpre n.
  pose proof (configure_term_logger_setup_run σ ht Href) as E0.
  set (σ0 := {| self := self σ;
                world := with_heap (alter (set_h_level (__term_setup_loglevel (self σ))) ht)
                           (world σ) |}) in E0.
  assert (wf σ0) as Hwf0.
  { eapply wf_configure_term_logger; [exact Hwf | left; exact E0]. }
  pose proof (set_level_only_handler_changed σ ht Ht (__term_setup_loglevel (self σ)) Hht)
    as (_ & Hht0 & Hother & Hlen & Hlg & _ & _ & _).
  fold σ0 in Hht0, Hother, Hlen, Hlg.
  destruct (init_setup_logger_attaches σ0 report None None Hwf0 Hacc Hpre)
    as (σ' & H & E & Hwf' & Hdir & Hfile & _ & _ & Hheap & Hs & Hl & _ & Hh & Hfd & _
        & _ & _ & Hterm).
  assert (file_destinations (world σ0) = file_destinations (world σ)) as Hfd0.
  { unfold file_destinations. rewrite Hlg. apply filter_ext_in. intros x _.
    unfold is_file_destination. destruct (decide (x = ht)) as [->|Hne].
    - rewrite Hht0, Hht. done.
    - by rewrite Hother. }
  exists σ', H. split; [|split_and!].
  - unfold pytest_runtest_setup. by rewrite (bind_Ok _ _ _ _ _ E0).
  - done.
  - rewrite Hheap, lookup_app_l; [done|]. by eapply lookup_lt_Some.
  - rewrite Hheap. apply list_lookup_middle. by rewrite Hlen.
  - done.
  - done.
  - by rewrite Hh, Hlg, Hlen.
  - by rewrite Hfd, Hfd0, Hlen.
  - done.
  - done.
  - by rewrite Hterm.
Qed.

Lemma setup_hook_attaches_report_file_witness :
  ∃ σ σ' H,
    pytest_configure {| opt_term_config_loglevel := None;
                        opt_term_setup_loglevel := None;
                        opt_term_call_loglevel := None |} log = (Ok (), σ) ∧
    pytest_runtest_setup "test_hello" σ = (Ok (), σ') ∧
    heap (world σ') !! 1%nat = Some H ∧
    h_sink H = file ["reports"; "test_hello_setup.log"].
Proof.
  pose (σ := (init_term_handler None None log).2).
  destruct (setup_hook_attaches_report_file σ "test_hello" 0
              {| h_sink := stderr; h_level := 20;
                 h_formatter := Some (ColorFormatter default_format) |})
    as (σ' & H & E & _ & _ & Hn & Hs & _).
  - apply (wf_init_term_handler None None log (Ok ())); [apply wf_log | by vm_compute].
  - by vm_compute.
  - by vm_compute.
  - reflexivity.
  - apply (bool_decide_unpack _). by vm_compute.
  - exists σ, σ', H. split; [by vm_compute|]. by split_and!.
Defined.

(** X19: [pytest_runtest_call] detaches nothing: a file destination that
    was attached before the call phase (the setup report of the test) gets
    the records of the call phase as well, under its own threshold. *)
Theorem call_hook_keeps_file_destinations
    (σ : State) (ht hf : nat) (Hf : Handler) (args : list string) (sep end_ : string) :
  wf σ →
  __term_handler (self σ) = Some ht →
  hf ∈ handlers (logger (world σ)) →
  hf ≠ ht →
  heap (world σ) !! hf = Some Hf →
  args ≠ [] →
  ∃ σ',
    pytest_runtest_call σ = (Ok (), σ') ∧
    handlers (logger (world σ')) = handlers (logger (world σ)) ∧
    delivers (info args sep end_ true) INFO σ' hf Hf ∧
    delivers (warning args sep end_ true) WARNING σ' hf Hf.
Proof.
  intros Hwf Href Hin Hne Hhf Hargs.
  pose proof (configure_term_logger_call_run σ ht Href) as E.
  eexists. split; [exact E|].
  assert (wf {| self := self σ;
                world := with_heap (alter (set_h_level (__term_call_loglevel (self σ))) ht)
                           (world σ) |}) as Hwf'.
  { eapply wf_configure_term_logger; [exact Hwf | right; exact E]. }
  split; [done|].
  split; [apply info_delivers | apply warning_delivers]; try done.
  all: simpl; by rewrite list_lookup_alter_ne.
Qed.

Lemma call_hook_keeps_file_destinations_witness :
  ∃ σ σ' H,
    (init_term_handler None None;; pytest_runtest_setup "test_hello") log = (Ok (), σ) ∧
    pytest_runtest_call σ = (Ok (), σ') ∧
    heap (world σ) !! 1%nat = Some H ∧
    h_sink H = file ["reports"; "test_hello_setup.log"] ∧
    delivers (warning ["Warning from a test!"] " " "" true) WARNING σ' 1 H.
Proof.
  pose (σ := ((init_term_handler None None;; pytest_runtest_setup "test_hello") log).2).
  pose (H := {| h_sink := file ["reports"; "test_hello_setup.log"]; h_level := 20;
                h_formatter := Some (Formatter default_format) |}).
  destruct (call_hook_keeps_file_destinations σ 0 1 H ["Warning from a test!"] " " "")
    as (σ' & E & _ & _ & Hw).
  - pose (σa := (init_term_handler None None log).2).
    pose (σb := (configure_term_logger_setup σa).2).
    assert (wf σa) as Hwfa.
    { apply (wf_init_term_handler None None log (Ok ())); [apply wf_log | by vm_compute]. }
    assert (wf σb) as Hwfb.
    { apply (wf_configure_term_logger σa (Ok ()) σb); [done | left; by vm_compute]. }
    apply (wf_init_setup_logger "./reports/test_hello_setup.log" None None σb (Ok ()) σ);
      [done | by vm_compute].
  - by vm_compute.
  - assert (handlers (logger (world σ)) = [0; 1]%nat) as Hhs by (by vm_compute).
    rewrite Hhs. set_solver.
  - done.
  - by vm_compute.
  - discriminate.
  - exists σ, σ', H. split; [by vm_compute|]. by split_and!.
Defined.

Lemma init_setup_logger_Ok_inv path level fmt σ σ' :
  wf σ →
  init_setup_logger path level fmt σ = (Ok (), σ') →
  ∃ H,
    wf σ' ∧
    heap (world σ') = heap (world σ) ++ [H] ∧
    h_sink H = file (abspath (fs (world σ)) path) ∧
    h_level H = default (__setup_file_loglevel (self σ)) level ∧
    handlers (logger (world σ')) =
      handlers (logger (world σ)) ++ [length (heap (world σ))] ∧
    __term_handler (self σ') = __term_handler (self σ) ∧
    __term_setup_loglevel (self σ') = __term_setup_loglevel (self σ) ∧
    __setup_file_loglevel (self σ') = default (__setup_file_loglevel (self σ)) level ∧
    cwd (fs (world σ')) = cwd (fs (world σ)).
Proof.
  intros Hwf E. pose proof (wf_init_setup_logger _ _ _ _ _ _ Hwf E) as Hwf'.
  destruct (init_setup_logger_cases path level fmt σ Hwf)
    as [[e1 Hmk]|(fs1 & Hmk & _ & Hcwd1 & _
                  & [[e2 Hop]|(fs2 & Hop & _ & Hcwd2 & _)])].
  - rewrite (init_setup_logger_mkdir_fails _ _ _ _ _ Hmk) in E. discriminate E.
  - rewrite (init_setup_logger_open_fails _ _ _ _ _ _ Hmk Hop) in E. discriminate E.
  - destruct (decide (accepted (__setup_format (setup_configured level fmt (self σ)))))
      as [Hacc|Hrej].
    + rewrite (init_setup_logger_run _ _ _ _ _ _ Hwf Hmk Hop Hacc) in E.
      injection E as <-. eexists. split; [exact Hwf'|]. simpl.
      rewrite (abspath_ext _ _ _ Hcwd1).
      split_and!; try done; try (by destruct level, fmt). congruence.
    + rewrite (init_setup_logger_rejected _ _ _ _ _ _ Hmk Hop Hrej) in E. discriminate E.
Qed.

Lemma setup_hook_Ok_inv σ testcase ht Ht σ' :
  wf σ →
  __term_handler (self σ) = Some ht →
  heap (world σ) !! ht = Some Ht →
  pytest_runtest_setup testcase σ = (Ok (), σ') →
  ∃ H,
    wf σ' ∧
    heap (world σ') =
      alter (set_h_level (__term_setup_loglevel (self σ))) ht (heap (world σ)) ++ [H] ∧
    h_sink H = file (abspath (fs (world σ)) ("./reports/" +:+ testcase +:+ "_setup.log")) ∧
    h_level H = __setup_file_loglevel (self σ) ∧
    handlers (logger (world σ')) =
      handlers (logger (world σ)) ++ [length (heap (world σ))] ∧
    __term_handler (self σ') = Some ht ∧
    __term_setup_loglevel (self σ') = __term_setup_loglevel (self σ) ∧
    __setup_file_loglevel (self σ') = __setup_file_loglevel (self σ) ∧
    cwd (fs (world σ')) = cwd (fs (world σ)).
Proof.
  intros Hwf Href Hht E. unfold pytest_runtest_setup in E.
  rewrite (bind_Ok _ _ _ _ _ (configure_term_logger_setup_run σ ht Href)) in E.
  set (σ0 := {| self := self σ;
                world := with_heap (alter (set_h_level (__term_setup_loglevel (self σ))) ht)
                           (world σ) |}) in E.
  assert (wf σ0) as Hwf0.
  { eapply wf_configure_term_logger; [exact Hwf|].
    left. by apply configure_term_logger_setup_run. }
  destruct (init_setup_logger_Ok_inv _ _ _ _ _ Hwf0 E)
    as (H & Hwf' & Hheap & Hs & Hl & Hh & Hr & Hsu & Hsf & Hcwd).
  exists H. simpl in *. rewrite length_alter in Hh. split_and!; try done.
  by rewrite Hr.
Qed.

(** X20: the setup report of an earlier test stays attached when the next
    test is set up: after two successful [pytest_runtest_setup] calls both
    report files are attached destinations, and a record logged from then
    on reaches the first test's file as well as the second's. *)
Theorem earlier_report_keeps_receiving
    (σ σ1 σ2 : State) (t1 t2 : string) (ht : nat) (Ht : Handler)
    (args : list string) (sep end_ : string) :
  wf σ →
  __term_handler (self σ) = Some ht →
  heap (world σ) !! ht = Some Ht →
  pytest_runtest_setup t1 σ = (Ok (), σ1) →
  pytest_runtest_setup t2 σ1 = (Ok (), σ2) →
  args ≠ [] →
  let n := length (heap (world σ)) in
  ∃ H1 H2,
    heap (world σ2) !! n = Some H1 ∧
    h_sink H1 = file (abspath (fs (world σ)) ("./reports/" +:+ t1 +:+ "_setup.log")) ∧
    heap (world σ2) !! S n = Some H2 ∧
    h_sink H2 = file (abspath (fs (world σ)) ("./reports/" +:+ t2 +:+ "_setup.log")) ∧
    h_level H1 = __setup_file_loglevel (self σ) ∧
    h_level H2 = __setup_file_loglevel (self σ) ∧
    delivers (info args sep end_ true) INFO σ2 n H1 ∧
    delivers (info args sep end_ true) INFO σ2 (S n) H2.
Proof.
  intros Hwf Href Hht E1 E2 Hargs n.
  pose proof (lookup_lt_Some _ _ _ Hht) as Hlt.
  destruct (setup_hook_Ok_inv _ _ _ _ _ Hwf Href Hht E1)
    as (H1 & Hwf1 & Hheap1 & Hs1 & Hl1 & Hh1 & Hr1 & Hsu1 & Hsf1 & Hcwd1).
  assert (heap (world σ1) !! ht =
          Some (set_h_level (__term_setup_loglevel (self σ)) Ht)) as Hht1.
  { rewrite Hheap1, lookup_app_l by (by rewrite length_alter).
    by rewrite list_lookup_alter_eq, Hht. }
  destruct (setup_hook_Ok_inv _ _ _ _ _ Hwf1 Hr1 Hht1 E2)
    as (H2 & Hwf2 & Hheap2 & Hs2 & Hl2 & Hh2 & _).
  rewrite (abspath_ext _ _ _ Hcwd1) in Hs2.
  assert (length (heap (world σ1)) = S n) as Hlen1.
  { rewrite Hheap1, length_app, length_alter. simpl. unfold n. lia. }
  assert (heap (world σ2) !! n = Some H1) as Hn.
  { rewrite Hheap2, lookup_app_l by (rewrite length_alter; lia).
    rewrite list_lookup_alter_ne by (unfold n; lia).
    rewrite Hheap1. apply list_lookup_middle. by rewrite length_alter. }
  assert (heap (world σ2) !! S n = Some H2) as HSn.
  { rewrite Hheap2. apply list_lookup_middle. by rewrite length_alter. }
  assert (handlers (logger (world σ2)) = handlers (logger (world σ)) ++ [n; S n]) as Hhs.
  { by rewrite Hh2, Hh1, Hlen1, <- app_assoc. }
  exists H1, H2. split_and!; try done.
  - by rewrite Hl2, Hsf1.
  - apply info_delivers; [done| |done|done]. rewrite Hhs. set_solver.
  - apply info_delivers; [done| |done|done]. rewrite Hhs. set_solver.
Qed.

Lemma earlier_report_keeps_receiving_witness :
  ∃ σ σ1 σ2 H1,
    init_term_handler None None log = (Ok (), σ) ∧
    pytest_runtest_setup "test_a" σ = (Ok (), σ1) ∧
    pytest_runtest_setup "test_b" σ1 = (Ok (), σ2) ∧
    heap (world σ2) !! 1%nat = Some H1 ∧
    h_sink H1 = file ["reports"; "test_a_setup.log"] ∧
    delivers (info ["from test_b"] " " "" true) INFO σ2 1 H1.
Proof.
  pose (σ := (init_term_handler None None log).2).
  pose (σ1 := (pytest_runtest_setup "test_a" σ).2).
  pose (σ2 := (pytest_runtest_setup "test_b" σ1).2).
  destruct (earlier_report_keeps_receiving σ σ1 σ2 "test_a" "test_b" 0
              {| h_sink := stderr; h_level := 20;
                 h_formatter := Some (ColorFormatter default_format) |}
              ["from test_b"] " " "")
    as (H1 & H2 & Hn & Hs1 & _ & _ & _ & _ & Hd1 & _).
  - apply (wf_init_term_handler None None log (Ok ())); [apply wf_log | by vm_compute].
  - by vm_compute.
  - by vm_compute.
  - by vm_compute.
  - by vm_compute.
  - discriminate.
  - exists σ, σ1, σ2, H1. split_and!; try (by vm_compute); done.
Defined.

(** ** A second router *)

(** X21: constructing another [TestLogger] over the same logger keeps every
    attached destination attached, so records still reach them, but the new
    object starts without a terminal reference (and with both counters at
    0): its terminal threshold cannot be set, the call raises. *)
Theorem second_router_inherits_destinations (σ : State) (kwargs : Kwargs) :
  wf σ →
  ∃ σ',
    construct kwargs (world σ) = Ok σ' ∧
    wf σ' ∧
    handlers (logger (world σ')) = handlers (logger (world σ)) ∧
    heap (world σ') = heap (world σ) ∧
    out (world σ') = out (world σ) ∧
    __term_handler (self σ') = None ∧
    __setup_file_handler (self σ') = None ∧
    __stepn (self σ') = 0 ∧ __substepn (self σ') = 0 ∧
    configure_term_logger_setup σ' = (Raise AttributeError, σ') ∧
    ∀ h H args sep end_,
      h ∈ handlers (logger (world σ)) → heap (world σ) !! h = Some H → args ≠ [] →
      delivers (info args sep end_ true) INFO σ' h H.
Proof.
  intros Hwf. eexists. split; [unfold construct, __init__; exec; reflexivity|].
  match goal with |- wf ?s ∧ _ => assert (wf s) as Hwf' end.
  { destruct Hwf as [Hl Hnd Hb Ht]. by split. }
  split_and!; try done.
  intros h H args sep end_ Hin Hh Hargs. by apply info_delivers.
Qed.

Lemma second_router_inherits_destinations_witness :
  ∃ σ σ',
    init_term_handler None None log = (Ok (), σ) ∧
    construct no_kwargs (world σ) = Ok σ' ∧
    handlers (logger (world σ')) = [0%nat] ∧
    configure_term_logger_setup σ' = (Raise AttributeError, σ').
Proof.
  pose (σ := (init_term_handler None None log).2).
  destruct (second_router_inherits_destinations σ no_kwargs)
    as (σ' & E & _ & Hh & _ & _ & _ & _ & _ & _ & Hc & _).
  - apply (wf_init_term_handler None None log (Ok ())); [apply wf_log | by vm_compute].
  - exists σ, σ'. split; [by vm_compute|]. split; [done|]. split; [|done].
    rewrite Hh. by vm_compute.
Defined.
